(** * Notes page and editor helpers of the renderer: a shallow embedding

    The development follows [src/renderer/src/pages/notes/NotesPage.tsx]
    (the operation manager, [findNodeById], [saveCurrentNote], the debounced
    save, the effects and their clean-ups, the file-watcher handler and the
    handlers of the tree) and the test suite of [commandSuggestion.onKeyDown]
    in [components/RichEditor/__tests__/commandSuggestion.test.ts].

    JavaScript strings are sequences of UTF-16 code units; the pending
    operations [Set] is a finite set; asynchronous functions are state
    transformers that either resolve or reject. *)

From Stdlib Require Import NArith Ascii String.
From stdpp Require Import base decidable option list sets gmap.

Open Scope N_scope.
Open Scope nat_scope.

(** ** JavaScript strings *)

Abbreviation jsstr := (list N).

(** A string literal of the source, as code units. *)
Definition js (s : string) : jsstr := map N_of_ascii (list_ascii_of_string s).

(** [a === b] on strings. *)
Fixpoint streq (a b : jsstr) : bool :=
  match a, b with
  | [], [] => true
  | x :: a', y :: b' => N.eqb x y && streq a' b'
  | _, _ => false
  end.

(** Truthiness of a string: only the empty string is falsy. *)
Definition truthy (s : jsstr) : bool :=
  match s with [] => false | _ :: _ => true end.

(** Truthiness of a [string | undefined] value. *)
Definition truthy_opt (s : option jsstr) : bool :=
  match s with Some s => truthy s | None => false end.

(** [a || b] on [string | undefined] operands. *)
Definition or_else (a b : option jsstr) : option jsstr :=
  if truthy_opt a then a else b.

(** [activeFilePath === filePath], the left operand possibly [undefined]. *)
Definition opt_streq (a : option jsstr) (b : jsstr) : bool :=
  match a with Some a => streq a b | None => false end.

(** [s.startsWith(p)]. *)
Fixpoint startsWith (s p : jsstr) {struct p} : bool :=
  match p, s with
  | [], _ => true
  | y :: p', x :: s' => N.eqb x y && startsWith s' p'
  | _ :: _, [] => false
  end.

(** [s.substring(n)] for a start index [n]: indices past the end are
    clamped, so the result is the suffix from [n]. *)
Definition substring (s : jsstr) (n : nat) : jsstr := drop n s.

(** [s.trim()]: the code units that ECMAScript counts as white space or
    as line terminators are removed from both ends. *)
Definition isWhiteSpace (c : N) : bool :=
  existsb (N.eqb c)
    [0x09; 0x0A; 0x0B; 0x0C; 0x0D; 0x20; 0xA0; 0x1680;
     0x2000; 0x2001; 0x2002; 0x2003; 0x2004; 0x2005; 0x2006; 0x2007;
     0x2008; 0x2009; 0x200A; 0x2028; 0x2029; 0x202F; 0x205F; 0x3000;
     0xFEFF]%N.

Fixpoint trimStart (s : jsstr) : jsstr :=
  match s with
  | c :: s' => if isWhiteSpace c then trimStart s' else s
  | [] => []
  end.

Definition trimEnd (s : jsstr) : jsstr := rev (trimStart (rev s)).

Definition trim (s : jsstr) : jsstr := trimEnd (trimStart s).

(** ** The note tree *)

Inductive NodeType := file | folder.

(** [a === b] on the two node types. *)
Definition NodeType_eqb (a b : NodeType) : bool :=
  match a, b with
  | file, file | folder, folder => true
  | _, _ => false
  end.

(** [NotesSortType] is a union of string literals declared outside this
    file; the page only passes it on. *)
Abbreviation NotesSortType := (list N).

(** The fields of [NotesTreeNode] that the page reads; [children] is an
    optional array. *)
#[local] Unset Elimination Schemes.
Inductive NotesTreeNode := mkNode {
  id : jsstr;
  name : jsstr;
  type : NodeType;
  externalPath : jsstr;
  children : option (list NotesTreeNode);
  isStarred : bool;
  expanded : bool
}.
#[local] Set Elimination Schemes.

(** One iteration of the [for (const node of tree)] loop of
    [findNodeById]: [Some] is an early [return], [None] falls through to
    the next iteration.  The inner [fix] is the recursive call
    [findNodeById(node.children, nodeId)], whose result is returned when
    it is not [null]. *)
Fixpoint findNodeById_visit (nodeId : jsstr) (node : NotesTreeNode)
  : option NotesTreeNode :=
  if streq (id node) nodeId then Some node
  else
    match children node with
    | Some ch =>
        (fix loop (tree : list NotesTreeNode) : option NotesTreeNode :=
           match tree with
           | [] => None
           | n :: rest =>
               match findNodeById_visit nodeId n with
               | Some found => Some found
               | None => loop rest
               end
           end) ch
    | None => None
    end.

(** [findNodeById(tree, nodeId)]; [None] is [null]. *)
Fixpoint findNodeById (tree : list NotesTreeNode) (nodeId : jsstr)
  : option NotesTreeNode :=
  match tree with
  | [] => None
  | node :: rest =>
      match findNodeById_visit nodeId node with
      | Some found => Some found
      | None => findNodeById rest nodeId
      end
  end.

(** Depth-first preorder: a node, then its children's subtrees in list
    order. *)
Fixpoint preorder_node (node : NotesTreeNode) : list NotesTreeNode :=
  node :: match children node with
          | Some ch => flat_map preorder_node ch
          | None => []
          end.

Definition preorder (tree : list NotesTreeNode) : list NotesTreeNode :=
  flat_map preorder_node tree.

(** ** Asynchronous code as state transformers

    An [async] function runs against the mutable state of the page (the refs
    and the note slice of the store) and either resolves with a value or
    rejects with an error.  The calls it makes to the services, the cache,
    the store, the logger and the toast are recorded in order. *)

Inductive JsError := mkError (message : string).

Inductive Result (A : Type) :=
  | Resolved (a : A)
  | Rejected (e : JsError).
Arguments Resolved {A} a.
Arguments Rejected {A} e.

Inductive Action :=
  | setActiveFilePath (path : option jsstr)
  | setSortType (sortType : NotesSortType).

Inductive LogLevel := lvlDebug | lvlWarn | lvlError.

Inductive Effect :=
  | CallInitWorkSpace (notesPath : jsstr) (sortType : NotesSortType)
  | CallInvalidateFileContent (path : jsstr)
  | CallDispatch (a : Action)
  | CallFileWrite (path content : jsstr)
  | CallGetNotesTree
  | CallRenameNode (nodeId newName : jsstr)
  | CallSortAllLevels (sortType : NotesSortType)
  | CallToastInfo (original final : jsstr)
  | CallLogger (lvl : LogLevel) (msg : string)
  | SetIsSyncingTree (b : bool).

(** The arguments of a pending debounced call and the time it is due. *)
Record DebouncedCall := mkDebouncedCall {
  dueAt : nat;
  pendingContent : jsstr;
  pendingFilePath : option jsstr
}.

Record World := mkWorld {
  pendingOperations : gset jsstr;      (* pendingOperationsRef.current *)
  isSyncingTree : bool;                (* isSyncingTreeRef.current *)
  lastContent : jsstr;                 (* lastContentRef.current *)
  lastFilePath : option jsstr;         (* lastFilePathRef.current *)
  storeActiveFilePath : option jsstr;  (* state.note.activeFilePath *)
  debounceTimer : option DebouncedCall; (* the timer of one [debouncedSave] *)
  clock : nat;                         (* milliseconds *)
  trace : list Effect
}.

Definition M (A : Type) : Type := World -> Result A * World.

Definition ret {A} (a : A) : M A := fun w => (Resolved a, w).

Definition throw {A} (e : JsError) : M A := fun w => (Rejected e, w).

Definition bind {A B} (m : M A) (k : A -> M B) : M B :=
  fun w =>
    match m w with
    | (Resolved a, w') => k a w'
    | (Rejected e, w') => (Rejected e, w')
    end.

(** [try { body } catch (error) { handler }] *)
Definition tryCatch {A} (body : M A) (handler : JsError -> M A) : M A :=
  fun w =>
    match body w with
    | (Resolved a, w') => (Resolved a, w')
    | (Rejected e, w') => handler e w'
    end.

(** [try { body } finally { finalizer }]: the finalizer runs on both exits
    and the body's completion stands unless the finalizer itself throws. *)
Definition tryFinally {A} (body : M A) (finalizer : M unit) : M A :=
  fun w =>
    match body w with
    | (r, w') =>
        match finalizer w' with
        | (Resolved _, w'') => (r, w'')
        | (Rejected e, w'') => (Rejected e, w'')
        end
    end.

Declare Scope async_scope.
Delimit Scope async_scope with async.
Notation "x <- c1 ;; c2" := (bind c1 (fun x => c2))
  (at level 100, c1 at next level, right associativity) : async_scope.
Notation "c1 ;; c2" := (bind c1 (fun _ => c2))
  (at level 100, right associativity) : async_scope.
Open Scope async_scope.

Definition gets {A} (f : World -> A) : M A := fun w => (Resolved (f w), w).

Definition modify (f : World -> World) : M unit := fun w => (Resolved tt, f w).

Definition record (e : Effect) (w : World) : World :=
  mkWorld (pendingOperations w) (isSyncingTree w) (lastContent w)
    (lastFilePath w) (storeActiveFilePath w) (debounceTimer w) (clock w)
    (trace w ++ [e]).

Definition emit (e : Effect) : M unit := modify (record e).

Definition set_pendingOperations (s : gset jsstr) (w : World) : World :=
  mkWorld s (isSyncingTree w) (lastContent w) (lastFilePath w)
    (storeActiveFilePath w) (debounceTimer w) (clock w) (trace w).

Definition set_isSyncingTree (b : bool) (w : World) : World :=
  mkWorld (pendingOperations w) b (lastContent w) (lastFilePath w)
    (storeActiveFilePath w) (debounceTimer w) (clock w) (trace w).

Definition set_lastContent (c : jsstr) (w : World) : World :=
  mkWorld (pendingOperations w) (isSyncingTree w) c (lastFilePath w)
    (storeActiveFilePath w) (debounceTimer w) (clock w) (trace w).

Definition set_lastFilePath (p : option jsstr) (w : World) : World :=
  mkWorld (pendingOperations w) (isSyncingTree w) (lastContent w) p
    (storeActiveFilePath w) (debounceTimer w) (clock w) (trace w).

Definition set_storeActiveFilePath (p : option jsstr) (w : World) : World :=
  mkWorld (pendingOperations w) (isSyncingTree w) (lastContent w)
    (lastFilePath w) p (debounceTimer w) (clock w) (trace w).

Definition set_debounceTimer (t : option DebouncedCall) (w : World) : World :=
  mkWorld (pendingOperations w) (isSyncingTree w) (lastContent w)
    (lastFilePath w) (storeActiveFilePath w) t (clock w) (trace w).

Definition set_clock (n : nat) (w : World) : World :=
  mkWorld (pendingOperations w) (isSyncingTree w) (lastContent w)
    (lastFilePath w) (storeActiveFilePath w) (debounceTimer w) n (trace w).

(** How the services answer the calls of one callback run: each call
    resolves or rejects. *)
Record Externals := mkExternals {
  fileWrite_outcome : jsstr -> jsstr -> Result unit;
  initWorkSpace_outcome : jsstr -> NotesSortType -> Result unit;
  getNotesTree_outcome : Result (list NotesTreeNode);
  renameNode_outcome : jsstr -> jsstr -> Result NotesTreeNode;
  sortAllLevels_outcome : NotesSortType -> Result unit
}.

(** A recorded service call followed by its outcome. *)
Definition call {A} (e : Effect) (outcome : Result A) : M A :=
  fun w => (outcome, record e w).

Definition logger (lvl : LogLevel) (msg : string) : M unit :=
  emit (CallLogger lvl msg).

Definition invalidateFileContent (path : jsstr) : M unit :=
  emit (CallInvalidateFileContent path).

(** Modelled from the spec: the reducer of the note slice ([store/note]) is
    not among the sources; [setActiveFilePath] stores its payload as the
    active file path and the other actions leave it alone. *)
Definition noteReducer (a : Action) (w : World) : World :=
  match a with
  | setActiveFilePath p => set_storeActiveFilePath p w
  | setSortType _ => w
  end.

Definition dispatch (a : Action) : M unit :=
  modify (fun w => noteReducer a (record (CallDispatch a) w)).

(** [isSyncingTreeRef.current = b]; the assignment is recorded so that its
    place among the calls can be stated. *)
Definition assignIsSyncingTree (b : bool) : M unit :=
  modify (fun w => record (SetIsSyncingTree b) (set_isSyncingTree b w)).

(** ** The notes page *)

(** What one render of [NotesPage] hands to the callbacks it creates. *)
Record Render := mkRender {
  notesPath : jsstr;
  activeFilePath : option jsstr;
  sortType : NotesSortType;
  currentContent : jsstr;
  notesTree : list NotesTreeNode
}.

Record FileChangeEvent := mkFileChangeEvent {
  eventType : jsstr;
  filePath : jsstr
}.

(** [array.includes(x)] on an array of strings. *)
Definition includes (l : list jsstr) (x : jsstr) : bool := existsb (streq x) l.

(** *** The operation manager *)

Definition addOperation (operationId : jsstr) : M unit :=
  modify (fun w =>
    set_pendingOperations ({[operationId]} ∪ pendingOperations w) w) ;;
  logger lvlDebug "Operation started:".

Definition removeOperation (operationId : jsstr) : M unit :=
  modify (fun w =>
    set_pendingOperations (pendingOperations w ∖ {[operationId]}) w) ;;
  logger lvlDebug "Operation completed:".

Definition hasPendingOperations (w : World) : bool :=
  0 <? size (pendingOperations w).

(** [operation] is the whole of what happens until the awaited promise
    settles, other callbacks that run in between included. *)
Definition withOperation {T} (operationId : jsstr) (operation : M T) : M T :=
  addOperation operationId ;;
  tryFinally operation (removeOperation operationId).

Section Page.
Variable ext : Externals.
Variable r : Render.

(** *** Services *)

Definition fileWrite (path content : jsstr) : M unit :=
  call (CallFileWrite path content) (fileWrite_outcome ext path content).

Definition initWorkSpace (path : jsstr) (st : NotesSortType) : M unit :=
  call (CallInitWorkSpace path st) (initWorkSpace_outcome ext path st).

Definition getNotesTree : M (list NotesTreeNode) :=
  call CallGetNotesTree (getNotesTree_outcome ext).

Definition renameNode (nodeId newName : jsstr) : M NotesTreeNode :=
  call (CallRenameNode nodeId newName) (renameNode_outcome ext nodeId newName).

Definition sortAllLevels (st : NotesSortType) : M unit :=
  call (CallSortAllLevels st) (sortAllLevels_outcome ext st).

(** *** Saving *)

Definition saveCurrentNote (content : jsstr) (filePath : option jsstr) : M unit :=
  let targetPath := or_else filePath (activeFilePath r) in
  if negb (truthy_opt targetPath)
     || streq (trim content) (trim (currentContent r))
  then ret tt
  else
    let targetPath := default [] targetPath in
    tryCatch
      (fileWrite targetPath content ;;
       invalidateFileContent targetPath)
      (fun error => logger lvlError "Failed to save note:").

(** The delay given to [debounce], in milliseconds. *)
Definition debounceWait : nat := 800.

(** [debouncedSave] is rebuilt whenever [saveCurrentNote] is ([useMemo] on
    it), and every instance has a timer of its own.  The page state follows
    one instance, the one the render at hand has built: [debounceTimer] is
    its timer, and its callback is that render's [saveCurrentNote].

    A call of the debounced function: nothing runs now; the timer is
    (re)armed with the latest arguments ([debounce] with its default
    options invokes on the trailing edge only). *)
Definition debouncedSave (content : jsstr) (filePath : option jsstr) : M unit :=
  modify (fun w =>
    set_debounceTimer
      (Some (mkDebouncedCall (clock w + debounceWait) content filePath)) w).

(** [debouncedSave.cancel()] called on that same instance. *)
Definition debouncedSave_cancel : M unit := modify (set_debounceTimer None).

(** The instance a closure holds: the one the page state follows, or one
    built by an earlier render, before [saveCurrentNote] was rebuilt. *)
Inductive DebounceInstance := armedInstance | earlierInstance.

(** [debouncedSave.cancel()] as a closure calls it: it stops the timer of
    the instance the closure holds and of no other. *)
Definition debouncedSave_cancel_of (held : DebounceInstance) : M unit :=
  match held with
  | armedInstance => debouncedSave_cancel
  | earlierInstance => ret tt
  end.

Definition handleMarkdownChange (newMarkdown : jsstr) : M unit :=
  modify (set_lastContent newMarkdown) ;;
  modify (set_lastFilePath (activeFilePath r)) ;;
  debouncedSave newMarkdown (activeFilePath r).

(** [ms] milliseconds pass with no call of the debounced function: once the
    timer is due its callback runs [saveCurrentNote(content, filePath)]
    (the promise is not awaited). *)
Definition elapse (ms : nat) : M unit :=
  modify (fun w => set_clock (clock w + ms) w) ;;
  timer <- gets debounceTimer ;;
  now <- gets clock ;;
  match timer with
  | Some c =>
      if dueAt c <=? now then
        modify (set_debounceTimer None) ;;
        tryCatch (saveCurrentNote (pendingContent c) (pendingFilePath c))
                 (fun _ => ret tt)
      else ret tt
  | None => ret tt
  end.

(** *** The file watcher *)

Definition isStructuralEvent (eventType : jsstr) : bool :=
  includes [js "add"; js "addDir"; js "unlink"; js "unlinkDir"] eventType.

(** The effect that starts the watcher returns early, registering no
    handler, when [notesPath] is not set or the tree is empty; the handler
    only ever runs for a render that passes this test. *)
Definition watcherRegistered : bool :=
  negb (negb (truthy (notesPath r)) || (length (notesTree r) =? 0)).

(** The handler the watcher effect registers, with what an awaited
    [initWorkSpace(..)] amounts to as a parameter: [awaitInitWorkSpace]
    is the whole of what happens from the call until its promise settles,
    other callbacks that run in between included. *)
Definition handleFileChange_awaiting
    (awaitInitWorkSpace : jsstr -> NotesSortType -> M unit)
    (data : FileChangeEvent) : M unit :=
  tryCatch
    (if negb (truthy (notesPath r)) then ret tt
     else
       let eventType := eventType data in
       let filePath := filePath data in
       pending <- gets hasPendingOperations ;;
       if isStructuralEvent eventType && pending then
         logger lvlDebug
           "Skipping structural file event during pending operations:"
       else if streq eventType (js "change") then
         if opt_streq (activeFilePath r) filePath then
           (* the body of this [try] is commented out in the source *)
           tryCatch (ret tt)
             (fun error =>
                logger lvlError "Failed to read file for content comparison:" ;;
                invalidateFileContent filePath)
         else awaitInitWorkSpace (notesPath r) (sortType r)
       else if includes [js "add"; js "addDir"; js "unlink"; js "unlinkDir"]
                 eventType then
         (if (streq eventType (js "unlink") || streq eventType (js "unlinkDir"))
             && opt_streq (activeFilePath r) filePath
          then dispatch (setActiveFilePath None)
          else ret tt) ;;
         assignIsSyncingTree true ;;
         tryFinally
           (tryCatch (awaitInitWorkSpace (notesPath r) (sortType r))
              (fun error => logger lvlError "Failed to sync database:"))
           (assignIsSyncingTree false)
       else logger lvlDebug "Unhandled file event type:")
    (fun error => logger lvlError "Failed to handle file change:").

(** [handleFileChange] when nothing else runs while [initWorkSpace] is
    awaited. *)
Definition handleFileChange (data : FileChangeEvent) : M unit :=
  handleFileChange_awaiting initWorkSpace data.

(** *** Renaming *)

Definition handleRenameNode (nodeId newName : jsstr) : M unit :=
  tryCatch
    (tree <- getNotesTree ;;
     match findNodeById tree nodeId with
     | Some node =>
         if negb (streq (name node) newName) then
           let oldExternalPath := externalPath node in
           renamedNode <-
             withOperation (js "renameNode:" ++ nodeId ++ js ":" ++ newName)
               (renamed <- renameNode nodeId newName ;;
                sortAllLevels (sortType r) ;;
                ret renamed) ;;
           (if NodeType_eqb (type renamedNode) file
               && opt_streq (activeFilePath r) oldExternalPath
            then dispatch (setActiveFilePath (Some (externalPath renamedNode)))
            else if NodeType_eqb (type renamedNode) folder
                    && truthy_opt (activeFilePath r)
                    && startsWith (default [] (activeFilePath r))
                         (oldExternalPath ++ js "/")
            then
              let relativePath :=
                substring (default [] (activeFilePath r)) (length oldExternalPath) in
              let newFilePath := externalPath renamedNode ++ relativePath in
              dispatch (setActiveFilePath (Some newFilePath))
            else ret tt) ;;
           if negb (streq (name renamedNode) newName)
           then emit (CallToastInfo newName (name renamedNode))
           else ret tt
         else ret tt
     | None => ret tt
     end)
    (fun error => logger lvlError "Failed to rename node:").

End Page.

(** ** The slash-command suggestion of the rich editor *)

Record KeyboardEvent := mkKeyboardEvent {
  key : jsstr;
  shiftKey : bool
}.

(** The calls the test suite spies on: [event.preventDefault] and the links
    of [editor.chain().focus().insertContent(..).run()]. *)
Inductive Call :=
  | preventDefault
  | chain
  | focus
  | insertContent (content : jsstr)
  | run.

Definition Call_eqb (a b : Call) : bool :=
  match a, b with
  | preventDefault, preventDefault | chain, chain | focus, focus | run, run => true
  | insertContent x, insertContent y => streq x y
  | _, _ => false
  end.

(** [toHaveBeenCalledTimes]: how often a spy was called. *)
Definition calledTimes (c : Call) (log : list Call) : nat :=
  length (filter (fun x => Call_eqb c x = true) log).

(** The arguments [insertContent] was called with, in order. *)
Definition insertedContents (log : list Call) : list jsstr :=
  omap (fun c => match c with insertContent s => Some s | _ => None end) log.

(** The line feed ['\n']. *)
Definition newline : jsstr := [10%N].

(** Modelled from the spec: [commandSuggestion.onKeyDown] ([../command]) is
    not among the sources, only its test suite is.  Shift+Enter prevents
    the default action, inserts a line feed through one
    [chain().focus().insertContent().run()] and reports the key as handled;
    every other key is left alone.  The result is the returned flag and the
    calls made, in order. *)
Definition onKeyDown (event : KeyboardEvent) : bool * list Call :=
  if streq (key event) (js "Enter") && shiftKey event then
    (true, [preventDefault; chain; focus; insertContent newline; run])
  else (false, []).

(** ** Descriptions of runs, and sample data *)

(** The page state right after [addOperation]. *)
Definition started (operationId : jsstr) (w : World) : World :=
  record (CallLogger lvlDebug "Operation started:")
    (set_pendingOperations ({[operationId]} ∪ pendingOperations w) w).

(** The page state right after [removeOperation]. *)
Definition completed (operationId : jsstr) (w : World) : World :=
  record (CallLogger lvlDebug "Operation completed:")
    (set_pendingOperations (pendingOperations w ∖ {[operationId]}) w).

(** A page with nothing going on. *)
Definition idle : World := mkWorld ∅ false [] None None None 0 [].

(** Is the event the removal of the file or folder that is open? *)
Definition removesActive (r : Render) (data : FileChangeEvent) : bool :=
  (streq (eventType data) (js "unlink") || streq (eventType data) (js "unlinkDir"))
  && opt_streq (activeFilePath r) (filePath data).

(** The page state when the selection has been cleared, if it had to be. *)
Definition selectionCleared (r : Render) (data : FileChangeEvent) (w : World)
  : World :=
  if removesActive r data
  then noteReducer (setActiveFilePath None)
         (record (CallDispatch (setActiveFilePath None)) w)
  else w.

(** The page state while [initWorkSpace] runs. *)
Definition syncing (r : Render) (w : World) : World :=
  record (CallInitWorkSpace (notesPath r) (sortType r))
    (record (SetIsSyncingTree true) (set_isSyncingTree true w)).

(** The page state when the [try]/[catch]/[finally] around the resync is
    left. *)
Definition synced (ext : Externals) (r : Render) (w : World) : World :=
  record (SetIsSyncingTree false)
    (set_isSyncingTree false
       match initWorkSpace_outcome ext (notesPath r) (sortType r) with
       | Resolved _ => w
       | Rejected _ => record (CallLogger lvlError "Failed to sync database:") w
       end).

(** The page state in which the awaited resync starts: the selection
    cleared if it had to be, and the tree-syncing flag raised. *)
Definition resyncStarted (r : Render) (data : FileChangeEvent) (w : World)
  : World :=
  record (SetIsSyncingTree true)
    (set_isSyncingTree true (selectionCleared r data w)).

(** The page state when the [try]/[catch]/[finally] around the resync is
    left, the awaited resync having settled with [res] in state [w]. *)
Definition resyncSettled (res : Result unit) (w : World) : World :=
  record (SetIsSyncingTree false)
    (set_isSyncingTree false
       match res with
       | Resolved _ => w
       | Rejected _ => record (CallLogger lvlError "Failed to sync database:") w
       end).

(** A resync during which the tree-syncing flag is read: [initWorkSpace] is
    called only if the flag is found set. *)
Definition initWorkSpace_ifSyncing (ext : Externals) (path : jsstr)
    (st : NotesSortType) : M unit :=
  syncing <- gets isSyncingTree ;;
  if syncing then initWorkSpace ext path st else ret tt.

Definition isLoggerCall (e : Effect) : bool :=
  match e with CallLogger _ _ => true | _ => false end.

Definition isDispatchCall (e : Effect) : bool :=
  match e with CallDispatch _ => true | _ => false end.

(** Services that always resolve. *)
Definition calm : Externals :=
  mkExternals (fun _ _ => Resolved tt) (fun _ _ => Resolved tt) (Resolved [])
    (fun nodeId newName => Resolved (mkNode nodeId newName file newName None false false))
    (fun _ => Resolved tt).

(** Services whose resync and write fail. *)
Definition failing : Externals :=
  mkExternals (fun _ _ => Rejected (mkError "EACCES"))
    (fun _ _ => Rejected (mkError "EIO")) (Resolved [])
    (fun _ _ => Rejected (mkError "ENOENT"))
    (fun _ => Resolved tt).

Definition aNote : NotesTreeNode :=
  mkNode (js "n1") (js "a") file (js "/notes/a.md") None false false.

(** A render with [/notes/a.md] open. *)
Definition sample : Render :=
  mkRender (js "/notes") (Some (js "/notes/a.md")) (js "sort_a2z") (js "old")
    [aNote].

(** The calls one run of [saveCurrentNote] makes. *)
Definition saveCalls (ext : Externals) (r : Render) (content : jsstr)
    (filePath : option jsstr) : list Effect :=
  match or_else filePath (activeFilePath r) with
  | Some targetPath =>
      if truthy targetPath
         && negb (streq (trim content) (trim (currentContent r)))
      then
        CallFileWrite targetPath content ::
        match fileWrite_outcome ext targetPath content with
        | Resolved _ => [CallInvalidateFileContent targetPath]
        | Rejected _ => [CallLogger lvlError "Failed to save note:"]
        end
      else []
  | None => []
  end.

(** Appending calls to the trace and nothing else. *)
Definition recorded (calls : list Effect) (w : World) : World :=
  mkWorld (pendingOperations w) (isSyncingTree w) (lastContent w)
    (lastFilePath w) (storeActiveFilePath w) (debounceTimer w) (clock w)
    (trace w ++ calls).

(** The node found and the node returned when a rename is made and the
    whole operation (the rename and the resort) resolves. *)
Definition successfulRename (ext : Externals) (r : Render)
    (nodeId newName : jsstr) : option (NotesTreeNode * NotesTreeNode) :=
  match getNotesTree_outcome ext with
  | Resolved tree =>
      match findNodeById tree nodeId with
      | Some node =>
          if streq (name node) newName then None
          else
            match renameNode_outcome ext nodeId newName,
                  sortAllLevels_outcome ext (sortType r) with
            | Resolved renamedNode, Resolved _ => Some (node, renamedNode)
            | _, _ => None
            end
      | None => None
      end
  | Rejected _ => None
  end.

(** The payload of the [setActiveFilePath] dispatch that follows a
    successful rename, if one is made. *)
Definition remappedPath (r : Render) (node renamedNode : NotesTreeNode)
  : option jsstr :=
  let oldExternalPath := externalPath node in
  if NodeType_eqb (type renamedNode) file
     && opt_streq (activeFilePath r) oldExternalPath
  then Some (externalPath renamedNode)
  else if NodeType_eqb (type renamedNode) folder
          && truthy_opt (activeFilePath r)
          && startsWith (default [] (activeFilePath r)) (oldExternalPath ++ js "/")
  then Some (externalPath renamedNode
             ++ substring (default [] (activeFilePath r)) (length oldExternalPath))
  else None.

Definition renameOperationId (nodeId newName : jsstr) : jsstr :=
  js "renameNode:" ++ nodeId ++ js ":" ++ newName.

(** The page state a run of [handleRenameNode] ends in. *)
Definition afterRename (ext : Externals) (r : Render) (nodeId newName : jsstr)
    (w : World) : World :=
  let opId := renameOperationId nodeId newName in
  let failed := record (CallLogger lvlError "Failed to rename node:") in
  let w1 := record CallGetNotesTree w in
  match getNotesTree_outcome ext with
  | Rejected _ => failed w1
  | Resolved tree =>
      match findNodeById tree nodeId with
      | None => w1
      | Some node =>
          if streq (name node) newName then w1
          else
            let w2 := record (CallRenameNode nodeId newName) (started opId w1) in
            match renameNode_outcome ext nodeId newName with
            | Rejected _ => failed (completed opId w2)
            | Resolved renamedNode =>
                let w3 := record (CallSortAllLevels (sortType r)) w2 in
                match sortAllLevels_outcome ext (sortType r) with
                | Rejected _ => failed (completed opId w3)
                | Resolved _ =>
                    let w4 := completed opId w3 in
                    let w5 :=
                      match remappedPath r node renamedNode with
                      | Some p =>
                          noteReducer (setActiveFilePath (Some p))
                            (record (CallDispatch (setActiveFilePath (Some p))) w4)
                      | None => w4
                      end in
                    if negb (streq (name renamedNode) newName)
                    then record (CallToastInfo newName (name renamedNode)) w5
                    else w5
                end
            end
      end
  end.

(** The actions dispatched among some calls, in order. *)
Definition dispatched (calls : list Effect) : list Action :=
  omap (fun e => match e with CallDispatch a => Some a | _ => None end) calls.

(** The calls dispatch [setActiveFilePath(p)] and nothing else, and [p] is
    the active file path at the end. *)
Definition activePathSetTo (p : jsstr) (calls : list Effect) (after : World)
  : Prop :=
  dispatched calls = [setActiveFilePath (Some p)]
  /\ storeActiveFilePath after = Some p.

(** The calls dispatch nothing and the active file path is as before. *)
Definition activePathKept (before : World) (calls : list Effect) (after : World)
  : Prop :=
  dispatched calls = []
  /\ storeActiveFilePath after = storeActiveFilePath before.

(** Services for renaming [n1] to [b]. *)
Definition bNote : NotesTreeNode :=
  mkNode (js "n1") (js "b") file (js "/notes/b.md") None false false.

Definition renaming : Externals :=
  mkExternals (fun _ _ => Resolved tt) (fun _ _ => Resolved tt)
    (Resolved [aNote]) (fun _ _ => Resolved bNote) (fun _ => Resolved tt).

(** The same rename, after which the resort fails. *)
Definition resortFailing : Externals :=
  mkExternals (fun _ _ => Resolved tt) (fun _ _ => Resolved tt)
    (Resolved [aNote]) (fun _ _ => Resolved bNote)
    (fun _ => Rejected (mkError "EIO")).

(** A folder [/notes/docs] that holds one note, and a render whose tree has
    it next to [a]. *)
Definition docsNote : NotesTreeNode :=
  mkNode (js "n3") (js "c") file (js "/notes/docs/c.md") None false false.

Definition docsFolder : NotesTreeNode :=
  mkNode (js "d1") (js "docs") folder (js "/notes/docs") (Some [docsNote])
    false true.

Definition sampleDocs : Render :=
  mkRender (js "/notes") (Some (js "/notes/a.md")) (js "sort_a2z") (js "old")
    [aNote; docsFolder].

(** ** More of the notes page *)

(** *** The character count *)

(** The two code units the pattern [/<[^>]*>/g] looks for. *)
Definition isTagOpen (c : N) : bool := N.eqb c 60.

Definition isTagClose (c : N) : bool := N.eqb c 62.

(** [text.replace(/<[^>]*>/g, '')], as the scan the regular expression
    performs from left to right.  Outside a match a ['<'] starts one when a
    ['>'] follows somewhere (the class [[^>]*] runs up to the first one);
    otherwise the code unit is kept.  [inside] says that the scan is within
    a match, whose code units are dropped up to and including the ['>']. *)
Fixpoint stripTags_from (inside : bool) (s : jsstr) : jsstr :=
  match s with
  | [] => []
  | c :: s' =>
      if inside then
        if isTagClose c then stripTags_from false s' else stripTags_from true s'
      else if isTagOpen c && existsb isTagClose s' then stripTags_from true s'
      else c :: stripTags_from false s'
  end.

Definition stripTags (s : jsstr) : jsstr := stripTags_from false s.

(** [updateCharCount]: the value handed to [setTokenCount].
    [editorContent] is [editorRef.current?.getContent()]. *)
Definition updateCharCount (editorContent : option jsstr) (currentContent : jsstr)
  : nat :=
  let textContent := default currentContent (or_else editorContent (Some currentContent)) in
  let plainText := stripTags textContent in
  length plainText.

(** *** The folder new items go to *)

(** [getTargetFolderPath]; [selectedFolderId] is [string | null]. *)
Definition getTargetFolderPath (r : Render) (selectedFolderId : option jsstr)
  : jsstr :=
  if truthy_opt selectedFolderId then
    match findNodeById (notesTree r) (default [] selectedFolderId) with
    | Some selectedNode =>
        if NodeType_eqb (type selectedNode) folder
        then externalPath selectedNode
        else notesPath r
    | None => notesPath r
    end
  else notesPath r.

(** *** Clearing a stale selection *)

(** The effect that runs when the tree, the active file path or the active
    node change; [activeNode] is what [useActiveNode] found for the active
    file path. *)
Definition clearStaleActivePath (r : Render) (activeNode : option NotesTreeNode)
  : M unit :=
  if length (notesTree r) =? 0 then ret tt
  else
    syncing <- gets isSyncingTree ;;
    pending <- gets hasPendingOperations ;;
    let shouldClearPath :=
      truthy_opt (activeFilePath r)
      && negb (bool_decide (is_Some activeNode))
      && negb syncing
      && negb pending in
    if shouldClearPath then
      logger lvlWarn "Clearing activeFilePath - node not found in tree" ;;
      dispatch (setActiveFilePath None)
    else ret tt.

(** *** Sorting *)

Definition handleSortNodes (ext : Externals) (newSortType : NotesSortType)
  : M unit :=
  tryCatch
    (dispatch (setSortType newSortType) ;;
     sortAllLevels ext newSortType)
    (fun error =>
       logger lvlError "Failed to sort notes:" ;;
       throw error).

(** *** Leaving a file *)

(** The cleanup of the effect keyed on the active file path: the content
    last typed is saved to the path it was typed for, the debounced save is
    cancelled and both refs are reset.  The effect depends on the active
    file path alone, so [r] is the render that opened the file, and
    [saveCurrentNote] and the debounce instance [held] are that render's. *)
Definition fileSwitchCleanup_holding (held : DebounceInstance)
    (ext : Externals) (r : Render) : M unit :=
  content <- gets lastContent ;;
  path <- gets lastFilePath ;;
  (if truthy content && truthy_opt path then
     tryCatch (saveCurrentNote ext r content path)
       (fun error => logger lvlError "Emergency save before file switch failed:")
   else ret tt) ;;
  debouncedSave_cancel_of held ;;
  modify (set_lastContent []) ;;
  modify (set_lastFilePath None).

(** The cleanup when [saveCurrentNote] has not been rebuilt since the file
    was opened: the edits were made through the render whose cleanup this
    is, and armed the instance it holds. *)
Definition fileSwitchCleanup (ext : Externals) (r : Render) : M unit :=
  fileSwitchCleanup_holding armedInstance ext r.

(** No ['<'] of the text has a ['>'] after it: there is nothing the pattern
    [/<[^>]*>/] could match. *)
Definition noCompleteTag (s : jsstr) : Prop :=
  forall a b, s = a ++ 60%N :: b -> ~ In 62%N b.

(** ** The handlers that reach further services

    These callbacks also call the note services, the file watcher, the
    editor, the toasts and the state setters of the page.  They run on a
    page state that carries the state above; every call is recorded in one
    list, the calls already recorded above appearing as [Core] entries. *)

Inductive MovePosition := posBefore | posAfter | posInside.

(** The update objects handed to [updateNodeInTree]. *)
Inductive NodePatch :=
  | patchExpanded (b : bool)
  | patchIsStarred (b : bool).

(** What [moveNode] resolves with: [result.success] and [result.type]. *)
Record MoveResult := mkMoveResult {
  success : bool;
  moveType : jsstr
}.

(** What [uploadFiles] resolves with. *)
Record UploadResult := mkUploadResult {
  fileCount : nat
}.

Inductive JsFile := mkJsFile (fileName : jsstr).

Inductive ToastKind := toastWarning | toastSuccess | toastError.

Inductive PageCall :=
  | Core (e : Effect)
  | CallCreateFolder (folderName parentPath : jsstr)
  | CallCreateNote (noteName content parentPath : jsstr)
  | CallDeleteNode (nodeId : jsstr)
  | CallUpdateNodeInTree (tree : list NotesTreeNode) (nodeId : jsstr)
      (patch : NodePatch)
  | CallMoveNode (sourceNodeId targetNodeId : jsstr) (position : MovePosition)
  | CallUploadFiles (files : list JsFile) (targetFolderPath : jsstr)
  | CallSetSelectedFolderId (folderId : option jsstr)
  | CallEditorClear
  | CallToast (kind : ToastKind) (key : string)
  | CallStartFileWatcher (path : jsstr)
  | CallOnFileChange
  | CallUnsubscribe
  | CallStopFileWatcher.

Record Page := mkPage {
  world : World;
  isInitialSortApplied : bool;   (* isInitialSortApplied.current *)
  editorMounted : bool;          (* editorRef.current is set *)
  watcherSubscribed : bool;      (* watcherRef.current is set *)
  calls : list PageCall
}.

(** How the further services answer, and the pure helper [isParentNode]
    of the tree service. *)
Record PageServices := mkPageServices {
  createFolder_outcome : jsstr -> jsstr -> Result unit;
  createNote_outcome : jsstr -> jsstr -> jsstr -> Result NotesTreeNode;
  deleteNode_outcome : jsstr -> Result unit;
  updateNodeInTree_outcome :
    list NotesTreeNode -> jsstr -> NodePatch -> Result unit;
  moveNode_outcome : jsstr -> jsstr -> MovePosition -> Result MoveResult;
  uploadFiles_outcome : list JsFile -> jsstr -> Result UploadResult;
  isParentNode : list NotesTreeNode -> jsstr -> jsstr -> bool;
  startFileWatcher_outcome : jsstr -> Result unit;
  stopFileWatcher_outcome : Result unit
}.

Definition P (A : Type) : Type := Page -> Result A * Page.

Definition pret {A} (a : A) : P A := fun p => (Resolved a, p).

Definition pthrow {A} (e : JsError) : P A := fun p => (Rejected e, p).

Definition pbind {A B} (m : P A) (k : A -> P B) : P B :=
  fun p =>
    match m p with
    | (Resolved a, p') => k a p'
    | (Rejected e, p') => (Rejected e, p')
    end.

Definition ptryCatch {A} (body : P A) (handler : JsError -> P A) : P A :=
  fun p =>
    match body p with
    | (Resolved a, p') => (Resolved a, p')
    | (Rejected e, p') => handler e p'
    end.

Definition ptryFinally {A} (body : P A) (finalizer : P unit) : P A :=
  fun p =>
    match body p with
    | (res, p') =>
        match finalizer p' with
        | (Resolved _, p'') => (res, p'')
        | (Rejected e, p'') => (Rejected e, p'')
        end
    end.

Close Scope async_scope.
Declare Scope page_scope.
Delimit Scope page_scope with page.
Notation "x <- c1 ;; c2" := (pbind c1 (fun x => c2))
  (at level 100, c1 at next level, right associativity) : page_scope.
Notation "c1 ;; c2" := (pbind c1 (fun _ => c2))
  (at level 100, right associativity) : page_scope.
Open Scope page_scope.

Definition set_world (w : World) (p : Page) : Page :=
  mkPage w (isInitialSortApplied p) (editorMounted p) (watcherSubscribed p)
    (calls p).

Definition set_isInitialSortApplied (b : bool) (p : Page) : Page :=
  mkPage (world p) b (editorMounted p) (watcherSubscribed p) (calls p).

Definition set_watcherSubscribed (b : bool) (p : Page) : Page :=
  mkPage (world p) (isInitialSortApplied p) (editorMounted p) b (calls p).

Definition pushCalls (cs : list PageCall) (p : Page) : Page :=
  mkPage (world p) (isInitialSortApplied p) (editorMounted p)
    (watcherSubscribed p) (calls p ++ cs).

Definition pgets {A} (f : Page -> A) : P A := fun p => (Resolved (f p), p).

Definition pmodify (f : Page -> Page) : P unit := fun p => (Resolved tt, f p).

(** A recorded call of a further service, followed by its outcome. *)
Definition pcall {A} (c : PageCall) (outcome : Result A) : P A :=
  fun p => (outcome, pushCalls [c] p).

Definition pemit (c : PageCall) : P unit := pcall c (Resolved tt).

(** A callback of the part above, run on the page: it acts on the state it
    knows, and the calls by which its trace grew are entered as [Core]
    calls. *)
Definition liftW {A} (m : M A) : P A :=
  fun p =>
    match m (world p) with
    | (res, w') =>
        (res,
         pushCalls (map Core (drop (length (trace (world p))) (trace w')))
           (set_world w' p))
    end.

(** [operationManager.withOperation] for an operation that also calls the
    further services. *)
Definition withOperationP {T} (operationId : jsstr) (operation : P T) : P T :=
  liftW (addOperation operationId) ;;
  ptryFinally operation (liftW (removeOperation operationId)).

(** What one render hands to these callbacks: the render above, the
    selected folder ([string | null]) and the node [useActiveNode] found. *)
Record PageRender := mkPageRender {
  render : Render;
  selectedFolderId : option jsstr;
  activeNode : option NotesTreeNode
}.

Section PageHandlers.
Variable ext : Externals.
Variable svc : PageServices.
Variable pr : PageRender.

Definition plogger (lvl : LogLevel) (msg : string) : P unit :=
  liftW (logger lvl msg).

Definition createFolder (folderName parentPath : jsstr) : P unit :=
  pcall (CallCreateFolder folderName parentPath)
    (createFolder_outcome svc folderName parentPath).

Definition createNote (noteName content parentPath : jsstr) : P NotesTreeNode :=
  pcall (CallCreateNote noteName content parentPath)
    (createNote_outcome svc noteName content parentPath).

Definition deleteNode (nodeId : jsstr) : P unit :=
  pcall (CallDeleteNode nodeId) (deleteNode_outcome svc nodeId).

Definition updateNodeInTree (tree : list NotesTreeNode) (nodeId : jsstr)
    (patch : NodePatch) : P unit :=
  pcall (CallUpdateNodeInTree tree nodeId patch)
    (updateNodeInTree_outcome svc tree nodeId patch).

Definition moveNode (sourceNodeId targetNodeId : jsstr)
    (position : MovePosition) : P MoveResult :=
  pcall (CallMoveNode sourceNodeId targetNodeId position)
    (moveNode_outcome svc sourceNodeId targetNodeId position).

Definition uploadFiles (files : list JsFile) (targetFolderPath : jsstr)
  : P UploadResult :=
  pcall (CallUploadFiles files targetFolderPath)
    (uploadFiles_outcome svc files targetFolderPath).

Definition setSelectedFolderId (folderId : option jsstr) : P unit :=
  pemit (CallSetSelectedFolderId folderId).

Definition toast (kind : ToastKind) (key : string) : P unit :=
  pemit (CallToast kind key).

(** *** Creating *)

Definition handleCreateFolder (folderName : jsstr) : P unit :=
  ptryCatch
    (let targetPath := getTargetFolderPath (render pr) (selectedFolderId pr) in
     if negb (truthy targetPath) then
       pthrow (mkError "No folder path selected")
     else
       withOperationP (js "createFolder:" ++ folderName)
         (createFolder folderName targetPath ;;
          liftW (sortAllLevels ext (sortType (render pr)))))
    (fun error => plogger lvlError "Failed to create folder:").

Definition handleCreateNote (noteName : jsstr) : P unit :=
  ptryCatch
    (let targetPath := getTargetFolderPath (render pr) (selectedFolderId pr) in
     if negb (truthy targetPath) then
       pthrow (mkError "No folder path selected")
     else
       newNote <-
         withOperationP (js "createNote:" ++ noteName)
           (note <- createNote noteName [] targetPath ;;
            liftW (sortAllLevels ext (sortType (render pr))) ;;
            pret note) ;;
       liftW (dispatch (setActiveFilePath (Some (externalPath newNote)))) ;;
       setSelectedFolderId None)
    (fun error => plogger lvlError "Failed to create note:").

(** *** Expanding and starring *)

Definition toggleNodeExpanded (nodeId : jsstr) : P (list NotesTreeNode) :=
  ptryCatch
    (tree <- liftW (getNotesTree ext) ;;
     (match findNodeById tree nodeId with
      | Some node =>
          if NodeType_eqb (type node) folder
          then updateNodeInTree tree nodeId (patchExpanded (negb (expanded node)))
          else pret tt
      | None => pret tt
      end) ;;
     pret tree)
    (fun error =>
       plogger lvlError "Failed to toggle expanded:" ;;
       pthrow error).

Definition handleToggleExpanded (nodeId : jsstr) : P unit :=
  ptryCatch
    (toggleNodeExpanded nodeId ;; pret tt)
    (fun error => plogger lvlError "Failed to toggle expanded:").

Definition toggleStarred (nodeId : jsstr) : P (list NotesTreeNode) :=
  ptryCatch
    (tree <- liftW (getNotesTree ext) ;;
     (match findNodeById tree nodeId with
      | Some node =>
          if NodeType_eqb (type node) file
          then updateNodeInTree tree nodeId (patchIsStarred (negb (isStarred node)))
          else pret tt
      | None => pret tt
      end) ;;
     pret tree)
    (fun error =>
       plogger lvlError "Failed to toggle star:" ;;
       pthrow error).

Definition handleToggleStar (nodeId : jsstr) : P unit :=
  ptryCatch
    (toggleStarred nodeId ;; pret tt)
    (fun error => plogger lvlError "Failed to toggle star:").

(** *** Selecting *)

Definition handleSelectNode (node : NotesTreeNode) : P unit :=
  if NodeType_eqb (type node) file then
    ptryCatch
      (liftW (dispatch (setActiveFilePath (Some (externalPath node)))) ;;
       liftW (invalidateFileContent (externalPath node)) ;;
       setSelectedFolderId None)
      (fun error => plogger lvlError "Failed to load note:")
  else if NodeType_eqb (type node) folder then
    setSelectedFolderId (Some (id node)) ;;
    handleToggleExpanded (id node)
  else pret tt.

(** *** Deleting *)

Definition handleDeleteNode (nodeId : jsstr) : P unit :=
  ptryCatch
    (match findNodeById (notesTree (render pr)) nodeId with
     | None => pret tt
     | Some nodeToDelete =>
         let isActiveNodeOrParent :=
           truthy_opt (activeFilePath (render pr))
           && (opt_streq (activeFilePath (render pr)) (externalPath nodeToDelete)
               || isParentNode svc (notesTree (render pr)) nodeId
                    (default []
                       (or_else (id <$> activeNode pr) (Some [])))) in
         deleteNode nodeId ;;
         liftW (sortAllLevels ext (sortType (render pr))) ;;
         if isActiveNodeOrParent then
           liftW (dispatch (setActiveFilePath None)) ;;
           mounted <- pgets editorMounted ;;
           if mounted then pemit CallEditorClear else pret tt
         else pret tt
     end)
    (fun error => plogger lvlError "Failed to delete node:").

(** *** Uploading and moving *)

Definition handleUploadFiles (files : list JsFile) : P unit :=
  ptryCatch
    (if length files =? 0 then
       toast toastWarning "notes.no_file_selected"
     else
       let targetFolderPath :=
         getTargetFolderPath (render pr) (selectedFolderId pr) in
       if negb (truthy targetFolderPath) then
         pthrow (mkError "No folder path selected")
       else
         result <- uploadFiles files targetFolderPath ;;
         if fileCount result =? 0 then
           toast toastWarning "notes.no_valid_files"
         else
           liftW (sortAllLevels ext (sortType (render pr))) ;;
           toast toastSuccess "notes.upload_success")
    (fun error =>
       plogger lvlError "Failed to handle file upload:" ;;
       toast toastError "notes.upload_failed").

Definition handleMoveNode (sourceNodeId targetNodeId : jsstr)
    (position : MovePosition) : P unit :=
  ptryCatch
    (result <- moveNode sourceNodeId targetNodeId position ;;
     if success result && negb (streq (moveType result) (js "manual_reorder"))
     then liftW (sortAllLevels ext (sortType (render pr)))
     else pret tt)
    (fun error => plogger lvlError "Failed to move nodes:").

(** *** The initial sort *)

Definition applyInitialSort : P unit :=
  applied <- pgets isInitialSortApplied ;;
  if (0 <? length (notesTree (render pr))) && negb applied then
    ptryCatch
      (liftW (sortAllLevels ext (sortType (render pr))) ;;
       pmodify (set_isInitialSortApplied true))
      (fun error => plogger lvlError "Failed to apply initial sorting:")
  else pret tt.

(** *** Starting and stopping the watcher *)

Definition dropSubscription : P unit :=
  subscribed <- pgets watcherSubscribed ;;
  if subscribed then
    pemit CallUnsubscribe ;;
    pmodify (set_watcherSubscribed false)
  else pret tt.

(** The body of the watcher effect, up to the registration of
    [handleFileChange]. *)
Definition startWatcherEffect : P unit :=
  if negb (truthy (notesPath (render pr)))
     || (length (notesTree (render pr)) =? 0)
  then pret tt
  else
    dropSubscription ;;
    ptryCatch
      (pcall (CallStartFileWatcher (notesPath (render pr)))
         (startFileWatcher_outcome svc (notesPath (render pr))) ;;
       pemit CallOnFileChange ;;
       pmodify (set_watcherSubscribed true))
      (fun error => plogger lvlError "Failed to start file watcher:").

(** The cleanup of the watcher effect.  The two promises it does not await
    ([stopFileWatcher] and the emergency save) are run to their end where
    they are started, so the place of their later calls (the logged
    failure, the cache invalidation) among the calls that follow carries no
    meaning. *)
Definition watcherCleanup : P unit :=
  dropSubscription ;;
  ptryCatch (pcall CallStopFileWatcher (stopFileWatcher_outcome svc))
    (fun error => plogger lvlError "Failed to stop file watcher:") ;;
  content <- pgets (fun p => lastContent (world p)) ;;
  path <- pgets (fun p => lastFilePath (world p)) ;;
  (if truthy content
      && negb (streq content (currentContent (render pr)))
      && truthy_opt path
   then
     ptryCatch (liftW (saveCurrentNote ext (render pr) content path))
       (fun error => plogger lvlError "Emergency save failed:")
   else pret tt) ;;
  liftW debouncedSave_cancel.

End PageHandlers.

(** Further services that always resolve; [createNote] answers with a note
    in the folder asked for. *)
Definition quiet : PageServices :=
  mkPageServices (fun _ _ => Resolved tt)
    (fun noteName _ parentPath =>
       Resolved (mkNode (js "n2") noteName file
                   (parentPath ++ js "/" ++ noteName ++ js ".md")
                   None false false))
    (fun _ => Resolved tt) (fun _ _ _ => Resolved tt)
    (fun _ _ _ => Resolved (mkMoveResult true (js "move_into")))
    (fun files _ => Resolved (mkUploadResult (length files)))
    (fun _ _ _ => false) (fun _ => Resolved tt) (Resolved tt).

(** The sample render with nothing selected and [aNote] as active node. *)
Definition samplePage : PageRender := mkPageRender sample None (Some aNote).

(** A render whose notes path is not set yet. *)
Definition unsetPage : PageRender :=
  mkPageRender (mkRender [] None (js "sort_a2z") [] []) None None.

(** A page with an editor and nothing going on. *)
Definition blank : Page := mkPage idle false true false [].

(** Is the call a [file.write] of this content to this path? *)
Definition isWriteOf (path content : jsstr) (c : PageCall) : bool :=
  match c with
  | Core (CallFileWrite p t) => streq p path && streq t content
  | _ => false
  end.

(** * Properties *)

(** ** Strings *)

Lemma streq_eq (a b : jsstr) : streq a b = true <-> a = b.
Proof.
  revert b; induction a as [|x a IH]; intros [|y b]; simpl; split;
    try congruence; try done.
  - intros [Hx Hab]%andb_prop. apply N.eqb_eq in Hx. apply IH in Hab. congruence.
  - intros [= -> ->]. rewrite N.eqb_refl. simpl. by apply IH.
Qed.

Lemma streq_refl (a : jsstr) : streq a a = true.
Proof. by apply streq_eq. Qed.

Lemma streq_neq (a b : jsstr) : streq a b = false <-> a <> b.
Proof.
  split.
  - intros H E. apply streq_eq in E. congruence.
  - intros H. destruct (streq a b) eqn:E; [|done]. apply streq_eq in E. done.
Qed.

Lemma opt_streq_eq (a : option jsstr) (b : jsstr) :
  opt_streq a b = true <-> a = Some b.
Proof.
  destruct a as [a|]; simpl; [|split; congruence].
  rewrite streq_eq. split; congruence.
Qed.

Lemma startsWith_app (s p : jsstr) :
  startsWith s p = true <-> exists rest, s = p ++ rest.
Proof.
  revert s; induction p as [|y p IH]; intros s; simpl.
  - split; [intros _; by exists s | reflexivity].
  - destruct s as [|x s]; simpl.
    + split; [done | intros [rest [=]]].
    + split.
      * intros [Hx Hs]%andb_prop. apply N.eqb_eq in Hx. apply IH in Hs as [rest ->].
        exists rest. by subst.
      * intros [rest [= -> ->]]. rewrite N.eqb_refl. simpl. apply IH. by exists rest.
Qed.

Lemma NodeType_eqb_eq (a b : NodeType) : NodeType_eqb a b = true <-> a = b.
Proof. destruct a, b; simpl; split; congruence. Qed.

Lemma startsWith_drop (s p : jsstr) :
  startsWith s p = true -> s = p ++ substring s (length p).
Proof.
  intros [rest ->]%startsWith_app. unfold substring.
  by rewrite drop_app_length.
Qed.

(** ** Finding a node *)

(** The loop body as the source writes it. *)
Lemma findNodeById_visit_eq (nodeId : jsstr) (node : NotesTreeNode) :
  findNodeById_visit nodeId node =
    if streq (id node) nodeId then Some node
    else match children node with
         | Some ch => findNodeById ch nodeId
         | None => None
         end.
Proof.
  destruct node as [i n t e [ch|] s x]; simpl; [|done].
  destruct (streq i nodeId); [done|].
  induction ch as [|c ch IH]; simpl; [done|]. by rewrite IH.
Qed.

(** One iteration of the loop of [findNodeById], then the rest of it. *)
Lemma findNodeById_cons (nodeId : jsstr) (node : NotesTreeNode)
    (rest : list NotesTreeNode) :
  findNodeById (node :: rest) nodeId =
    if streq (id node) nodeId then Some node
    else
      match (match children node with
             | Some ch => findNodeById ch nodeId
             | None => None
             end) with
      | Some found => Some found
      | None => findNodeById rest nodeId
      end.
Proof.
  change (findNodeById (node :: rest) nodeId) with
    (match findNodeById_visit nodeId node with
     | Some found => Some found
     | None => findNodeById rest nodeId
     end).
  rewrite findNodeById_visit_eq. by destruct (streq (id node) nodeId).
Qed.

(** Induction over a forest: the hypothesis is available for the children
    of the head and for the remaining siblings. *)
Section ForestInd.
Variable P : list NotesTreeNode -> Prop.
Hypothesis P_nil : P [].
Hypothesis P_cons : forall node rest,
  (forall ch, children node = Some ch -> P ch) -> P rest -> P (node :: rest).

Lemma forest_ind_children :
  forall node ch, children node = Some ch -> P ch.
Proof.
  fix IH 1. intros [i n t e [l|] s x] ch; simpl; intros [=]; subst ch.
  induction l as [|c l' IHl]; [exact P_nil|].
  apply P_cons; [apply IH | exact IHl].
Qed.

Lemma forest_ind (tree : list NotesTreeNode) : P tree.
Proof.
  induction tree as [|n t IH]; [exact P_nil|].
  apply P_cons; [apply forest_ind_children | exact IH].
Qed.
End ForestInd.

Lemma preorder_cons (node : NotesTreeNode) (rest : list NotesTreeNode) :
  preorder (node :: rest) =
    node :: match children node with
            | Some ch => preorder ch
            | None => []
            end ++ preorder rest.
Proof. unfold preorder. simpl. by destruct node as [i n t e [ch|] s x]. Qed.

Lemma find_app {A} (f : A -> bool) (l1 l2 : list A) :
  List.find f (l1 ++ l2) =
    match List.find f l1 with Some x => Some x | None => List.find f l2 end.
Proof.
  induction l1 as [|a l1 IH]; simpl; [done|]. by destruct (f a).
Qed.

Lemma findNodeById_find (tree : list NotesTreeNode) (nodeId : jsstr) :
  findNodeById tree nodeId =
    List.find (fun n => streq (id n) nodeId) (preorder tree).
Proof.
  induction tree as [|node rest IHch IHrest] using forest_ind; [done|].
  rewrite findNodeById_cons, preorder_cons. simpl.
  destruct (streq (id node) nodeId); [done|].
  rewrite find_app. destruct (children node) as [ch|]; simpl.
  - by rewrite (IHch ch eq_refl), IHrest.
  - exact IHrest.
Qed.

(** C9: [findNodeById] returns the first node, in depth-first preorder
    (a node before its children, siblings in list order), whose id equals
    [nodeId]: the traversal splits into nodes with other ids, the node
    returned, and the rest.  It returns [null] exactly when no node of the
    tree, at any depth, has that id. *)
Theorem findNodeById_first_in_preorder
    (tree : list NotesTreeNode) (nodeId : jsstr) :
  findNodeById tree nodeId =
    List.find (fun n => streq (id n) nodeId) (preorder tree)
  /\ (forall node, findNodeById tree nodeId = Some node <->
        exists before after,
          preorder tree = before ++ node :: after
          /\ id node = nodeId
          /\ Forall (fun n => id n <> nodeId) before)
  /\ (findNodeById tree nodeId = None <->
        Forall (fun n => id n <> nodeId) (preorder tree)).
Proof.
  rewrite findNodeById_find. split; [done|].
  generalize (preorder tree) as l. intros l. split.
  - intros node. induction l as [|n l IH]; simpl.
    + split; [done|]. intros (before & after & E & _). by destruct before.
    + destruct (streq (id n) nodeId) eqn:En.
      * apply streq_eq in En. split.
        -- intros [= <-]. exists [], l. repeat split; [done|constructor].
        -- intros (before & after & E & Hid & Hb).
           destruct before as [|b before]; simpl in E.
           ++ congruence.
           ++ injection E as <- _. inversion Hb; subst. done.
      * apply streq_neq in En. rewrite IH. split.
        -- intros (before & after & -> & Hid & Hb).
           exists (n :: before), after. repeat split; [done|by constructor].
        -- intros (before & after & E & Hid & Hb).
           destruct before as [|b before]; simpl in E.
           ++ injection E as -> _. done.
           ++ injection E as <- ->. exists before, after.
              repeat split; [done|by inversion Hb].
  - induction l as [|n l IH]; simpl; [by split|].
    destruct (streq (id n) nodeId) eqn:En.
    + apply streq_eq in En. split; [done|]. by inversion 1.
    + apply streq_neq in En. rewrite IH. split.
      * by constructor.
      * by inversion 1.
Qed.

(** ** The operation manager *)

Lemma hasPendingOperations_true (w : World) :
  hasPendingOperations w = true <-> pendingOperations w <> ∅.
Proof.
  unfold hasPendingOperations. rewrite Nat.ltb_lt.
  rewrite <- (leibniz_equiv_iff (pendingOperations w) ∅).
  rewrite <- size_non_empty_iff. lia.
Qed.

Lemma hasPendingOperations_false (w : World) :
  hasPendingOperations w = false <-> pendingOperations w = ∅.
Proof.
  unfold hasPendingOperations. rewrite Nat.ltb_ge.
  rewrite <- (leibniz_equiv_iff (pendingOperations w) ∅).
  rewrite <- size_empty_iff. lia.
Qed.

Lemma withOperation_run {T} (operationId : jsstr) (operation : M T) (w : World) :
  withOperation operationId operation w =
    (fst (operation (started operationId w)),
     completed operationId (snd (operation (started operationId w)))).
Proof.
  unfold withOperation, addOperation, removeOperation, bind, tryFinally,
    logger, emit, modify.
  fold (started operationId w).
  destruct (operation (started operationId w)) as [res w1]. reflexivity.
Qed.

(** C4, as amended: [withOperation] adds [operationId] to the pending set
    before the operation runs and removes it afterwards on both exits: the
    call settles as the operation does (its result when it resolves, its
    error when it rejects) and the set ends as the operation left it, with
    [operationId] removed.  The call leaves the set as it found it exactly
    when [operationId] was not pending before the call and the ids pending
    when the operation settles are, [operationId] aside, those pending
    before the call; so, when nothing else changed the set while the
    operation ran, exactly when [operationId] was not pending before. *)
Theorem withOperation_pending_set {T} (operationId : jsstr)
    (operation : M T) (w : World) :
  let w_in := snd (addOperation operationId w) in
  let settled := operation w_in in
  let done := withOperation operationId operation w in
  operationId ∈ pendingOperations w_in
  /\ pendingOperations w_in = {[operationId]} ∪ pendingOperations w
  /\ fst done = fst settled
  /\ snd done = snd (removeOperation operationId (snd settled))
  /\ pendingOperations (snd done) =
       pendingOperations (snd settled) ∖ {[operationId]}
  /\ (operationId ∉ pendingOperations (snd done))
  /\ (pendingOperations (snd done) = pendingOperations w <->
      (operationId ∉ pendingOperations w)
      /\ pendingOperations (snd settled) ∖ {[operationId]}
         = pendingOperations w)
  /\ (pendingOperations (snd settled) = pendingOperations w_in ->
      (pendingOperations (snd done) = pendingOperations w <->
       operationId ∉ pendingOperations w)).
Proof.
  intros w_in settled done. subst done. rewrite withOperation_run.
  change (started operationId w) with w_in. fold settled.
  assert (Hin : pendingOperations w_in = {[operationId]} ∪ pendingOperations w)
    by reflexivity.
  change (pendingOperations (snd (_, completed operationId (snd settled))))
    with (pendingOperations (snd settled) ∖ {[operationId]}).
  split; [rewrite Hin; set_solver|]. split; [done|]. split; [done|].
  split; [done|].
  generalize dependent (pendingOperations (snd settled)).
  rewrite Hin. intros after.
  split; [done|]. split; [set_solver|]. split; [|intros ->]; set_solver.
Qed.

Lemma withOperation_pending_set_witness :
  pendingOperations
    (snd (withOperation (js "createNote:a") (ret tt) idle))
  = pendingOperations idle.
Proof.
  destruct (withOperation_pending_set (js "createNote:a") (ret tt) idle)
    as (_ & _ & _ & _ & _ & _ & _ & Hquiet).
  apply Hquiet; [reflexivity | apply not_elem_of_empty].
Defined.

(** C4, as stated, fails when the id is already pending: with
    ["createNote:a"] pending from an earlier call that has not settled, a
    second call with the same id that completes leaves the set empty, not
    as it found it. *)
Lemma withOperation_same_id_not_restored :
  let w := set_pendingOperations {[js "createNote:a"]} idle in
  let done := withOperation (js "createNote:a") (ret tt) w in
  fst done = Resolved tt
  /\ pendingOperations w = {[js "createNote:a"]}
  /\ pendingOperations (snd done) = ∅
  /\ pendingOperations (snd done) <> pendingOperations w.
Proof.
  intros w done. subst done. rewrite withOperation_run. simpl.
  repeat split; set_solver.
Qed.

(** Nor is the set left as found when the other pending ids change while
    the operation runs: with ["createFolder:x"] pending, a call for
    ["createNote:y"] during which the earlier call completes ends with the
    empty set. *)
Example withOperation_overlapping_ids_not_restored :
  let w := set_pendingOperations {[js "createFolder:x"]} idle in
  let done := withOperation (js "createNote:y")
                (removeOperation (js "createFolder:x")) w in
  fst done = Resolved tt
  /\ (js "createNote:y" ∉ pendingOperations w)
  /\ pendingOperations (snd done) = ∅
  /\ pendingOperations (snd done) <> pendingOperations w.
Proof.
  intros w done. subst done. rewrite withOperation_run. simpl.
  assert (Hother : js "createNote:y" <> js "createFolder:x") by discriminate.
  split; [done|]. split; [set_solver|].
  assert (Hempty : ({[js "createNote:y"; js "createFolder:x"]}
                      ∖ {[js "createFolder:x"]}) ∖ {[js "createNote:y"]}
                   = (∅ : gset jsstr)) by set_solver.
  rewrite Hempty. split; [done|].
  intros E. apply (not_elem_of_empty (C:=gset jsstr) (js "createFolder:x")).
  rewrite E. set_solver.
Qed.

(** ** The file watcher *)

Lemma isStructuralEvent_cases (e : jsstr) :
  isStructuralEvent e = true <->
  e = js "add" \/ e = js "addDir" \/ e = js "unlink" \/ e = js "unlinkDir".
Proof.
  unfold isStructuralEvent, includes, existsb.
  rewrite !orb_true_iff, !streq_eq. intuition congruence.
Qed.

Lemma watcherRegistered_notesPath (r : Render) :
  watcherRegistered r = true -> truthy (notesPath r) = true.
Proof.
  unfold watcherRegistered. destruct (truthy (notesPath r)); [done|].
  simpl. done.
Qed.

Lemma handleFileChange_structural (ext : Externals) (r : Render)
    (data : FileChangeEvent) (w : World) :
  truthy (notesPath r) = true ->
  isStructuralEvent (eventType data) = true ->
  hasPendingOperations w = false ->
  handleFileChange ext r data w =
    (Resolved tt, synced ext r (syncing r (selectionCleared r data w))).
Proof.
  intros Hpath Hev Hpend.
  assert (Hchange : streq (eventType data) (js "change") = false).
  { apply isStructuralEvent_cases in Hev.
    destruct Hev as [-> | [-> | [-> | ->]]]; reflexivity. }
  unfold handleFileChange, handleFileChange_awaiting, tryCatch at 1, bind at 1, gets.
  rewrite Hpath. cbv beta. cbn [negb].
  rewrite Hpend, andb_false_r, Hchange.
  change (includes _ (eventType data)) with (isStructuralEvent (eventType data)).
  rewrite Hev.
  fold (removesActive r data).
  unfold synced, syncing, selectionCleared.
  destruct (removesActive r data);
    cbv [initWorkSpace call tryFinally tryCatch bind modify emit dispatch
         assignIsSyncingTree logger ret];
    destruct (initWorkSpace_outcome ext (notesPath r) (sortType r)) as [[]|];
    reflexivity.
Qed.

Lemma handleFileChange_suppressed (ext : Externals) (r : Render)
    (data : FileChangeEvent) (w : World) :
  truthy (notesPath r) = true ->
  isStructuralEvent (eventType data) = true ->
  hasPendingOperations w = true ->
  handleFileChange ext r data w =
    (Resolved tt,
     record (CallLogger lvlDebug
               "Skipping structural file event during pending operations:") w).
Proof.
  intros Hpath Hev Hpend.
  unfold handleFileChange, handleFileChange_awaiting, tryCatch, bind, gets.
  rewrite Hpath. cbv beta. cbn [negb].
  rewrite Hpend, Hev. reflexivity.
Qed.

Lemma handleFileChange_no_notesPath (ext : Externals) (r : Render)
    (data : FileChangeEvent) (w : World) :
  truthy (notesPath r) = false ->
  handleFileChange ext r data w = (Resolved tt, w).
Proof.
  intros Hpath. unfold handleFileChange, handleFileChange_awaiting, tryCatch. rewrite Hpath. reflexivity.
Qed.

Lemma handleFileChange_change_other (ext : Externals) (r : Render)
    (path : jsstr) (w : World) :
  truthy (notesPath r) = true ->
  opt_streq (activeFilePath r) path = false ->
  trace (snd (handleFileChange ext r (mkFileChangeEvent (js "change") path) w))
  = trace w ++ CallInitWorkSpace (notesPath r) (sortType r) ::
      match initWorkSpace_outcome ext (notesPath r) (sortType r) with
      | Resolved _ => []
      | Rejected _ => [CallLogger lvlError "Failed to handle file change:"]
      end.
Proof.
  intros Hpath Hother.
  unfold handleFileChange, handleFileChange_awaiting, tryCatch, bind, gets.
  rewrite Hpath. cbv beta. cbn [negb eventType filePath].
  rewrite Hother.
  change (isStructuralEvent (js "change")) with false.
  change (streq (js "change") (js "change")) with true.
  cbn [andb]. unfold initWorkSpace, call, logger, emit, modify.
  destruct (initWorkSpace_outcome ext (notesPath r) (sortType r)); simpl;
    [done|]. by rewrite <- app_assoc.
Qed.

(** C1, as amended: while the pending set is not empty, every structural
    watcher event ([add], [addDir], [unlink], [unlinkDir]) is suppressed:
    the handler returns having made no call but to the logger, so no
    resync, no cache invalidation and no dispatch, and the refs and the
    store are as before.  Content events are let through by design: a
    [change] of a file other than the active one still resyncs the
    workspace. *)
Theorem handleFileChange_suppresses_structural (ext : Externals) (r : Render)
    (data : FileChangeEvent) (w : World) :
  pendingOperations w <> ∅ ->
  let out := handleFileChange ext r data w in
  (isStructuralEvent (eventType data) = true ->
     fst out = Resolved tt
     /\ pendingOperations (snd out) = pendingOperations w
     /\ isSyncingTree (snd out) = isSyncingTree w
     /\ storeActiveFilePath (snd out) = storeActiveFilePath w
     /\ exists logs, trace (snd out) = trace w ++ logs
                     /\ forallb isLoggerCall logs = true)
  /\ (watcherRegistered r = true ->
      eventType data = js "change" ->
      activeFilePath r <> Some (filePath data) ->
      exists rest,
        trace (snd out) =
          trace w ++ CallInitWorkSpace (notesPath r) (sortType r) :: rest).
Proof.
  intros Hpend%hasPendingOperations_true out. subst out. split.
  - intros Hev. destruct (truthy (notesPath r)) eqn:Hpath.
    + rewrite handleFileChange_suppressed by done. simpl.
      repeat split. by eexists.
    + rewrite handleFileChange_no_notesPath by done. simpl.
      repeat split. exists []. by rewrite app_nil_r.
  - intros Hreg%watcherRegistered_notesPath Hev Hother.
    destruct data as [ev path]; simpl in *; subst ev.
    rewrite handleFileChange_change_other; [by eexists|done|].
    destruct (opt_streq (activeFilePath r) path) eqn:E; [|done].
    by apply opt_streq_eq in E.
Qed.

Lemma handleFileChange_suppresses_structural_witness :
  let w := set_pendingOperations {[js "createNote:b"]} idle in
  let out := handleFileChange calm sample
               (mkFileChangeEvent (js "add") (js "/notes/b.md")) w in
  fst out = Resolved tt
  /\ pendingOperations (snd out) = pendingOperations w
  /\ isSyncingTree (snd out) = isSyncingTree w
  /\ storeActiveFilePath (snd out) = storeActiveFilePath w
  /\ exists logs, trace (snd out) = trace w ++ logs
                  /\ forallb isLoggerCall logs = true.
Proof.
  intros w out.
  apply (handleFileChange_suppresses_structural calm sample
           (mkFileChangeEvent (js "add") (js "/notes/b.md")) w).
  - apply hasPendingOperations_true. vm_compute. reflexivity.
  - reflexivity.
Defined.

(** C1, as stated, fails on content events: with an operation pending, a
    [change] of [/notes/b.md] while [/notes/a.md] is open is not
    suppressed; the handler resyncs the workspace. *)
Lemma handleFileChange_change_not_suppressed :
  let w := set_pendingOperations {[js "createNote:b"]} idle in
  let out := handleFileChange calm sample
               (mkFileChangeEvent (js "change") (js "/notes/b.md")) w in
  pendingOperations w <> ∅
  /\ trace w = []
  /\ trace (snd out) = [CallInitWorkSpace (js "/notes") (js "sort_a2z")].
Proof.
  intros w out. split; [|split].
  - apply hasPendingOperations_true. vm_compute. reflexivity.
  - reflexivity.
  - vm_compute. reflexivity.
Qed.

(** X28: a structural event delivered while an operation wrapped by
    [withOperation] is still running finds its id pending and is dropped,
    whatever was pending before. *)
Lemma handleFileChange_during_withOperation (ext : Externals) (r : Render)
    (data : FileChangeEvent) (operationId : jsstr) (w : World) :
  isStructuralEvent (eventType data) = true ->
  let out := withOperation operationId (handleFileChange ext r data) w in
  fst out = Resolved tt
  /\ storeActiveFilePath (snd out) = storeActiveFilePath w
  /\ isSyncingTree (snd out) = isSyncingTree w
  /\ exists logs, trace (snd out) = trace w ++ logs
                  /\ forallb isLoggerCall logs = true.
Proof.
  intros Hev out. subst out. rewrite withOperation_run.
  assert (Hpend : hasPendingOperations (started operationId w) = true).
  { apply hasPendingOperations_true. unfold started. simpl.
    intros E. apply (not_elem_of_empty (C:=gset (list N)) operationId).
    rewrite <- E. apply elem_of_union_l, elem_of_singleton. reflexivity. }
  destruct (truthy (notesPath r)) eqn:Hpath.
  - rewrite handleFileChange_suppressed by done. simpl.
    repeat split. eexists. rewrite <- !app_assoc. by split.
  - rewrite handleFileChange_no_notesPath by done. simpl.
    repeat split. eexists. rewrite <- !app_assoc. by split.
Qed.

Lemma handleFileChange_awaiting_structural (r : Render)
    (awaitInitWorkSpace : jsstr -> NotesSortType -> M unit)
    (data : FileChangeEvent) (w : World) :
  truthy (notesPath r) = true ->
  isStructuralEvent (eventType data) = true ->
  hasPendingOperations w = false ->
  handleFileChange_awaiting r awaitInitWorkSpace data w =
    (Resolved tt,
     resyncSettled
       (fst (awaitInitWorkSpace (notesPath r) (sortType r)
               (resyncStarted r data w)))
       (snd (awaitInitWorkSpace (notesPath r) (sortType r)
               (resyncStarted r data w)))).
Proof.
  intros Hpath Hev Hpend.
  assert (Hchange : streq (eventType data) (js "change") = false).
  { apply isStructuralEvent_cases in Hev.
    destruct Hev as [-> | [-> | [-> | ->]]]; reflexivity. }
  unfold handleFileChange_awaiting, tryCatch at 1, bind at 1, gets.
  rewrite Hpath. cbv beta. cbn [negb].
  rewrite Hpend, andb_false_r, Hchange.
  change (includes _ (eventType data)) with (isStructuralEvent (eventType data)).
  rewrite Hev.
  fold (removesActive r data).
  unfold resyncSettled, resyncStarted, selectionCleared.
  destruct (removesActive r data);
    cbv [tryFinally tryCatch bind modify emit dispatch assignIsSyncingTree
         logger ret];
    match goal with
    | |- context [awaitInitWorkSpace ?path ?st ?w0] =>
        destruct (awaitInitWorkSpace path st w0) as [[[]|e] w1]
    end; reflexivity.
Qed.

(** C3: a structural event that the guard lets through sets the
    tree-syncing flag before it resyncs: whatever happens from the call of
    [initWorkSpace] with the current notes path and sort type until its
    promise settles starts in a state in which the flag is set.  The flag
    is cleared afterwards, whether the resync resolves or rejects and
    whatever it did to the flag meanwhile; a rejection is logged and the
    handler still resolves. *)
Theorem handleFileChange_structural_resync (ext : Externals) (r : Render)
    (data : FileChangeEvent) (w : World) :
  watcherRegistered r = true ->
  isStructuralEvent (eventType data) = true ->
  pendingOperations w = ∅ ->
  let out := handleFileChange ext r data w in
  fst out = Resolved tt
  /\ trace (snd out) =
       trace w
       ++ (if removesActive r data
           then [CallDispatch (setActiveFilePath None)] else [])
       ++ [SetIsSyncingTree true;
           CallInitWorkSpace (notesPath r) (sortType r)]
       ++ match initWorkSpace_outcome ext (notesPath r) (sortType r) with
          | Resolved _ => []
          | Rejected _ => [CallLogger lvlError "Failed to sync database:"]
          end
       ++ [SetIsSyncingTree false]
  /\ isSyncingTree (snd out) = false
  /\ isSyncingTree (resyncStarted r data w) = true
  /\ forall awaitInitWorkSpace : jsstr -> NotesSortType -> M unit,
       let settled :=
         awaitInitWorkSpace (notesPath r) (sortType r) (resyncStarted r data w) in
       let out' := handleFileChange_awaiting r awaitInitWorkSpace data w in
       out' = (Resolved tt, resyncSettled (fst settled) (snd settled))
       /\ isSyncingTree (snd out') = false.
Proof.
  intros Hreg%watcherRegistered_notesPath Hev Hpend%hasPendingOperations_false
    out.
  subst out. rewrite handleFileChange_structural by done.
  unfold synced, syncing, selectionCleared.
  split; [done|]. split; [|split; [done|split; [done|]]].
  - destruct (removesActive r data);
      destruct (initWorkSpace_outcome ext (notesPath r) (sortType r)); simpl;
      by rewrite <- ?app_assoc.
  - intros awaitInitWorkSpace. cbv zeta.
    rewrite handleFileChange_awaiting_structural by done. done.
Qed.

(** A resync that reads the flag finds it set: the call it makes only then
    is made. *)
Lemma handleFileChange_structural_resync_witness :
  let out := handleFileChange_awaiting sample (initWorkSpace_ifSyncing failing)
               (mkFileChangeEvent (js "addDir") (js "/notes/dir")) idle in
  fst out = Resolved tt
  /\ trace (snd out) =
       [SetIsSyncingTree true;
        CallInitWorkSpace (js "/notes") (js "sort_a2z");
        CallLogger lvlError "Failed to sync database:";
        SetIsSyncingTree false]
  /\ isSyncingTree (snd out) = false.
Proof.
  destruct (handleFileChange_structural_resync failing sample
              (mkFileChangeEvent (js "addDir") (js "/notes/dir")) idle)
    as (_ & _ & _ & _ & Hawait); [reflexivity | reflexivity | reflexivity |].
  destruct (Hawait (initWorkSpace_ifSyncing failing)) as [Hrun Hflag].
  cbv zeta. rewrite Hrun. repeat split.
Defined.

(** C6: for an [unlink] or [unlinkDir] event that the guard lets through,
    when the removed path is the active file path the handler dispatches
    [setActiveFilePath(undefined)], which clears the active file path,
    before it resyncs the workspace; for any other path this branch
    dispatches nothing and the active file path stays as it was. *)
Theorem handleFileChange_unlink_active (ext : Externals) (r : Render)
    (data : FileChangeEvent) (w : World) :
  watcherRegistered r = true ->
  eventType data = js "unlink" \/ eventType data = js "unlinkDir" ->
  pendingOperations w = ∅ ->
  let out := handleFileChange ext r data w in
  (activeFilePath r = Some (filePath data) ->
     storeActiveFilePath (snd out) = None
     /\ exists rest,
          trace (snd out) =
            trace w
            ++ CallDispatch (setActiveFilePath None)
            :: SetIsSyncingTree true
            :: CallInitWorkSpace (notesPath r) (sortType r) :: rest)
  /\ (activeFilePath r <> Some (filePath data) ->
      storeActiveFilePath (snd out) = storeActiveFilePath w
      /\ exists new,
           trace (snd out) = trace w ++ new
           /\ existsb isDispatchCall new = false).
Proof.
  intros Hreg%watcherRegistered_notesPath Hev Hpend%hasPendingOperations_false
    out.
  assert (Hstruct : isStructuralEvent (eventType data) = true)
    by (apply isStructuralEvent_cases; tauto).
  subst out. rewrite handleFileChange_structural by done.
  unfold synced, syncing, selectionCleared, removesActive.
  assert (Hkind : streq (eventType data) (js "unlink")
                  || streq (eventType data) (js "unlinkDir") = true).
  { destruct Hev as [-> | ->]; reflexivity. }
  rewrite Hkind. cbn [andb]. split.
  - intros Hactive%opt_streq_eq. rewrite Hactive.
    destruct (initWorkSpace_outcome ext (notesPath r) (sortType r)); simpl;
      (split; [done|]); eexists; rewrite <- !app_assoc; reflexivity.
  - intros Hother.
    destruct (opt_streq (activeFilePath r) (filePath data)) eqn:E.
    { by apply opt_streq_eq in E. }
    destruct (initWorkSpace_outcome ext (notesPath r) (sortType r)); simpl;
      (split; [done|]); eexists; rewrite <- !app_assoc; (split; [reflexivity|]);
      reflexivity.
Qed.

Lemma handleFileChange_unlink_active_witness :
  let out := handleFileChange calm sample
               (mkFileChangeEvent (js "unlink") (js "/notes/a.md"))
               (set_storeActiveFilePath (Some (js "/notes/a.md")) idle) in
  storeActiveFilePath (snd out) = None
  /\ exists rest,
       trace (snd out) =
         [] ++ CallDispatch (setActiveFilePath None)
         :: SetIsSyncingTree true
         :: CallInitWorkSpace (js "/notes") (js "sort_a2z") :: rest.
Proof.
  destruct (handleFileChange_unlink_active calm sample
              (mkFileChangeEvent (js "unlink") (js "/notes/a.md"))
              (set_storeActiveFilePath (Some (js "/notes/a.md")) idle))
    as [Hactive _]; [reflexivity | left; reflexivity | reflexivity |].
  apply Hactive. reflexivity.
Defined.

(** ** Saving *)

Lemma recorded_nil (w : World) : recorded [] w = w.
Proof. destruct w. unfold recorded. simpl. by rewrite app_nil_r. Qed.

Lemma saveCurrentNote_run (ext : Externals) (r : Render) (content : jsstr)
    (filePath : option jsstr) (w : World) :
  saveCurrentNote ext r content filePath w =
    (Resolved tt, recorded (saveCalls ext r content filePath) w).
Proof.
  unfold saveCurrentNote, saveCalls.
  destruct (or_else filePath (activeFilePath r)) as [p|]; simpl;
    [|by rewrite recorded_nil].
  destruct (truthy p); simpl; [|by rewrite recorded_nil].
  destruct (streq (trim content) (trim (currentContent r))); simpl;
    [by rewrite recorded_nil|].
  cbv [tryCatch bind fileWrite call invalidateFileContent logger emit modify].
  destruct (fileWrite_outcome ext p content) as [[]|]; unfold recorded, record;
    simpl; by rewrite <- app_assoc.
Qed.

Lemma handleMarkdownChange_run (r : Render) (newMarkdown : jsstr) (w : World) :
  handleMarkdownChange r newMarkdown w =
    (Resolved tt,
     set_debounceTimer
       (Some (mkDebouncedCall (clock w + debounceWait) newMarkdown
                (activeFilePath r)))
       (set_lastFilePath (activeFilePath r) (set_lastContent newMarkdown w))).
Proof. reflexivity. Qed.

Lemma elapse_trace (ext : Externals) (r : Render) (ms : nat) (w : World) :
  trace (snd (elapse ext r ms w)) =
    trace w ++
    match debounceTimer w with
    | Some c =>
        if dueAt c <=? clock w + ms
        then saveCalls ext r (pendingContent c) (pendingFilePath c)
        else []
    | None => []
    end.
Proof.
  unfold elapse. cbv [bind modify gets]. simpl.
  destruct (debounceTimer w) as [c|]; simpl; [|by rewrite app_nil_r].
  destruct (dueAt c <=? clock w + ms); simpl; [|by rewrite app_nil_r].
  unfold tryCatch. rewrite saveCurrentNote_run. reflexivity.
Qed.

(** C2, as amended: [saveCurrentNote] makes no call at all when there is no
    target path (neither a [filePath] argument nor an active file path) or
    when the trimmed new content equals the trimmed cached content.
    Otherwise it calls [file.write] with the target path and the content;
    when the write resolves it then invalidates the cached content of that
    path, and when the write rejects the error is logged and nothing is
    invalidated.  An edit writes nothing itself: it arms the debounce timer
    for 800 ms later with the latest content and path, a further edit
    before that replaces the armed call, and once 800 ms have passed the
    save runs once, with the latest arguments. *)
Theorem saveCurrentNote_guarded_write (ext : Externals) (r : Render)
    (content : jsstr) (filePath : option jsstr) (w : World) :
  let targetPath := or_else filePath (activeFilePath r) in
  let out := saveCurrentNote ext r content filePath w in
  fst out = Resolved tt
  /\ (truthy_opt targetPath = false
      \/ trim content = trim (currentContent r) ->
      snd out = w)
  /\ (forall p,
        targetPath = Some p -> p <> [] ->
        trim content <> trim (currentContent r) ->
        snd out =
          recorded
            (CallFileWrite p content ::
             match fileWrite_outcome ext p content with
             | Resolved _ => [CallInvalidateFileContent p]
             | Rejected _ => [CallLogger lvlError "Failed to save note:"]
             end) w)
  /\ (let edited := snd (handleMarkdownChange r content w) in
      trace edited = trace w
      /\ debounceTimer edited =
           Some (mkDebouncedCall (clock w + 800) content (activeFilePath r))
      /\ (forall ms, ms < 800 ->
            trace (snd (elapse ext r ms edited)) = trace w)
      /\ (forall ms, 800 <= ms ->
            trace (snd (elapse ext r ms edited)) =
              trace (snd (saveCurrentNote ext r content (activeFilePath r) w)))
      /\ (forall ms earlier, ms < 800 ->
            let burst :=
              snd (handleMarkdownChange r content
                     (snd (elapse ext r ms
                             (snd (handleMarkdownChange r earlier w))))) in
            trace (snd (elapse ext r 800 burst)) =
              trace (snd (saveCurrentNote ext r content (activeFilePath r) w)))).
Proof.
  intros targetPath out. subst out. rewrite saveCurrentNote_run. cbn [fst snd].
  split; [done|]. split; [|split].
  - unfold saveCalls. subst targetPath.
    destruct (or_else filePath (activeFilePath r)) as [p|];
      [|by rewrite recorded_nil].
    intros [Hnone | Hsame].
    + simpl in Hnone. rewrite Hnone. by rewrite recorded_nil.
    + apply streq_eq in Hsame. rewrite Hsame, andb_false_r.
      by rewrite recorded_nil.
  - intros p Hp Hne Hdiff. unfold saveCalls. subst targetPath. rewrite Hp.
    apply streq_neq in Hdiff. rewrite Hdiff.
    destruct p; [done|]. reflexivity.
  - rewrite handleMarkdownChange_run, saveCurrentNote_run. cbn [snd].
    change (trace (recorded ?calls w)) with (trace w ++ calls).
    split; [done|]. split; [done|]. split; [|split].
    + intros ms Hms. rewrite elapse_trace. simpl. unfold debounceWait.
      destruct (Nat.leb_spec (clock w + 800) (clock w + ms)); [lia|].
      by rewrite app_nil_r.
    + intros ms Hms. rewrite elapse_trace. simpl. unfold debounceWait.
      destruct (Nat.leb_spec (clock w + 800) (clock w + ms)); [done|lia].
    + intros ms earlier Hms.
      rewrite elapse_trace. rewrite !handleMarkdownChange_run. cbn [snd].
      cbn [debounceTimer set_debounceTimer dueAt pendingContent
           pendingFilePath clock trace set_lastFilePath set_lastContent].
      rewrite elapse_trace. simpl. unfold debounceWait.
      destruct (Nat.leb_spec (clock w + 800) (clock w + ms)); [lia|].
      rewrite app_nil_r. f_equal.
      assert (Hclock : forall ww, clock (snd (elapse ext r ms ww)) = clock ww + ms).
      { intros ww. unfold elapse. cbv [bind modify gets]. simpl.
        destruct (debounceTimer ww) as [c|]; simpl; [|done].
        destruct (dueAt c <=? clock ww + ms); simpl; [|done].
        unfold tryCatch. rewrite saveCurrentNote_run. reflexivity. }
      rewrite Hclock. simpl.
      destruct (Nat.leb_spec (clock w + ms + 800) (clock w + ms + 800));
        [done|lia].
Qed.

Lemma saveCurrentNote_guarded_write_witness :
  snd (saveCurrentNote calm sample (js "new") None idle) =
    recorded [CallFileWrite (js "/notes/a.md") (js "new");
              CallInvalidateFileContent (js "/notes/a.md")] idle.
Proof.
  destruct (saveCurrentNote_guarded_write calm sample (js "new") None idle)
    as (_ & _ & Hwrite & _).
  apply (Hwrite (js "/notes/a.md"));
    [reflexivity | vm_compute; discriminate | vm_compute; discriminate].
Defined.

(** C2, as stated, fails when the write fails: the guard passes (there is a
    target path and the content differs), [file.write] is called and
    rejects, and the cached content of the path is not invalidated. *)
Lemma saveCurrentNote_failed_write_not_invalidated :
  let out := saveCurrentNote failing sample (js "new") None idle in
  or_else None (activeFilePath sample) = Some (js "/notes/a.md")
  /\ trim (js "new") <> trim (currentContent sample)
  /\ trace (snd out) =
       [CallFileWrite (js "/notes/a.md") (js "new");
        CallLogger lvlError "Failed to save note:"]
  /\ ~ In (CallInvalidateFileContent (js "/notes/a.md")) (trace (snd out)).
Proof.
  intros out. split; [reflexivity|]. split; [vm_compute; discriminate|].
  split; [reflexivity|].
  vm_compute. intros [H|[H|[]]]; discriminate.
Qed.

(** ** Renaming *)

Lemma handleRenameNode_run (ext : Externals) (r : Render)
    (nodeId newName : jsstr) (w : World) :
  handleRenameNode ext r nodeId newName w =
    (Resolved tt, afterRename ext r nodeId newName w).
Proof.
  unfold handleRenameNode, afterRename.
  cbv [tryCatch bind getNotesTree call].
  destruct (getNotesTree_outcome ext) as [tree|e]; [|reflexivity].
  destruct (findNodeById tree nodeId) as [node|]; [|reflexivity].
  destruct (streq (name node) newName); [reflexivity|].
  cbn [negb]. rewrite withOperation_run.
  fold (renameOperationId nodeId newName).
  cbv [renameNode sortAllLevels call bind ret]. cbn [fst snd].
  destruct (renameNode_outcome ext nodeId newName) as [renamed|e]; [|reflexivity].
  destruct (sortAllLevels_outcome ext (sortType r)) as [[]|e]; [|reflexivity].
  cbn [fst snd]. unfold remappedPath.
  destruct (NodeType_eqb (type renamed) file
            && opt_streq (activeFilePath r) (externalPath node)).
  { cbv [dispatch modify emit].
    destruct (negb (streq (name renamed) newName)); reflexivity. }
  destruct (NodeType_eqb (type renamed) folder && truthy_opt (activeFilePath r)
            && startsWith (default [] (activeFilePath r))
                 (externalPath node ++ js "/")).
  { cbv [dispatch modify emit].
    destruct (negb (streq (name renamed) newName)); reflexivity. }
  cbv [emit modify]. destruct (negb (streq (name renamed) newName)); reflexivity.
Qed.

Lemma remappedPath_file (r : Render) (node renamedNode : NotesTreeNode) :
  type renamedNode = file ->
  activeFilePath r = Some (externalPath node) ->
  remappedPath r node renamedNode = Some (externalPath renamedNode).
Proof.
  intros Ht Ha. unfold remappedPath. rewrite Ht, Ha. simpl.
  by rewrite streq_refl.
Qed.

Lemma remappedPath_folder (r : Render) (node renamedNode : NotesTreeNode)
    (suffix : jsstr) :
  type renamedNode = folder ->
  activeFilePath r = Some (externalPath node ++ js "/" ++ suffix) ->
  remappedPath r node renamedNode =
    Some (externalPath renamedNode ++ js "/" ++ suffix).
Proof.
  intros Ht Ha. unfold remappedPath. rewrite Ht, Ha.
  cbv [default from_option Datatypes.id]. cbn [NodeType_eqb andb].
  assert (Htruthy : truthy_opt (Some (externalPath node ++ js "/" ++ suffix)) = true).
  { simpl. by destruct (externalPath node). }
  rewrite Htruthy. cbn [andb].
  assert (Hstarts : startsWith (externalPath node ++ js "/" ++ suffix)
                      (externalPath node ++ js "/") = true).
  { apply startsWith_app. exists suffix. by rewrite <- app_assoc. }
  rewrite Hstarts. unfold substring. by rewrite drop_app_length.
Qed.

Lemma remappedPath_none (r : Render) (node renamedNode : NotesTreeNode) :
  ~ (type renamedNode = file /\ activeFilePath r = Some (externalPath node)) ->
  ~ (type renamedNode = folder
     /\ exists suffix,
          activeFilePath r = Some (externalPath node ++ js "/" ++ suffix)) ->
  remappedPath r node renamedNode = None.
Proof.
  intros Hfile Hfolder. unfold remappedPath.
  destruct (NodeType_eqb (type renamedNode) file
            && opt_streq (activeFilePath r) (externalPath node)) eqn:E1.
  { apply andb_prop in E1 as [Ht%NodeType_eqb_eq Ha%opt_streq_eq]. tauto. }
  destruct (NodeType_eqb (type renamedNode) folder && truthy_opt (activeFilePath r)
            && startsWith (default [] (activeFilePath r))
                 (externalPath node ++ js "/")) eqn:E2; [|done].
  apply andb_prop in E2 as [[Ht%NodeType_eqb_eq Htr]%andb_prop Hs].
  destruct (activeFilePath r) as [active|]; [|done]. simpl in Hs.
  apply startsWith_app in Hs as [suffix ->].
  exfalso. apply Hfolder. split; [done|]. exists suffix.
  by rewrite <- app_assoc.
Qed.

(** C7, as amended: [handleRenameNode] calls [renameNode] only when the
    node is found and its name differs from the new name.  When the rename
    operation resolves, that is [renameNode] and the [sortAllLevels] that
    follows it both do: if the renamed node is a file and the active file path is the
    node's old external path, the active file path is set to the renamed
    node's external path; if it is a folder and the active file path is the
    old folder path, a ['/'] and a suffix, the active file path is set to
    the new folder path followed by the same ['/'] and suffix; otherwise,
    and whenever no rename is made or the operation rejects, also when the
    rename itself resolved and only the resort rejected, nothing is
    dispatched and the active file path is unchanged. *)
Theorem handleRenameNode_active_path (ext : Externals) (r : Render)
    (nodeId newName : jsstr) (w : World) :
  let out := handleRenameNode ext r nodeId newName w in
  fst out = Resolved tt
  /\ exists calls,
       trace (snd out) = trace w ++ calls
       /\ (forall i n,
             In (CallRenameNode i n) calls <->
             i = nodeId /\ n = newName
             /\ exists tree node,
                  getNotesTree_outcome ext = Resolved tree
                  /\ findNodeById tree nodeId = Some node
                  /\ name node <> newName)
       /\ match successfulRename ext r nodeId newName with
          | Some (node, renamedNode) =>
              let old := externalPath node in
              (type renamedNode = file ->
               activeFilePath r = Some old ->
               activePathSetTo (externalPath renamedNode) calls (snd out))
              /\ (type renamedNode = folder ->
                  forall suffix,
                    activeFilePath r = Some (old ++ js "/" ++ suffix) ->
                    activePathSetTo
                      (externalPath renamedNode ++ js "/" ++ suffix)
                      calls (snd out))
              /\ (~ (type renamedNode = file /\ activeFilePath r = Some old) ->
                  ~ (type renamedNode = folder
                     /\ exists suffix,
                          activeFilePath r = Some (old ++ js "/" ++ suffix)) ->
                  activePathKept w calls (snd out))
          | None => activePathKept w calls (snd out)
          end.
Proof.
  intros out. subst out. rewrite handleRenameNode_run. cbn [fst snd].
  split; [done|].
  unfold afterRename, successfulRename.
  destruct (getNotesTree_outcome ext) as [tree|e].
  2:{ eexists. split; [cbn; rewrite <- app_assoc; reflexivity|].
      split; [|by split].
      intros i n. cbn. split; [intros [H|[H|[]]]; discriminate|].
      intros (_ & _ & tree & node & H & _). discriminate. }
  destruct (findNodeById tree nodeId) as [node|] eqn:Hfind.
  2:{ eexists. split; [cbn; reflexivity|]. split; [|by split].
      intros i n. cbn. split; [intros [H|[]]; discriminate|].
      intros (_ & _ & tree' & node & [= <-] & H & _). congruence. }
  destruct (streq (name node) newName) eqn:Hname.
  { eexists. split; [cbn; reflexivity|]. split; [|by split].
    intros i n. cbn. split; [intros [H|[]]; discriminate|].
    intros (_ & _ & tree' & node' & [= <-] & H & Hne).
    apply streq_eq in Hname. congruence. }
  apply streq_neq in Hname.
  assert (Hattempt : exists tree0 node0,
            Resolved tree = Resolved tree0
            /\ findNodeById tree0 nodeId = Some node0 /\ name node0 <> newName)
    by (exists tree, node; done).
  destruct (renameNode_outcome ext nodeId newName) as [renamed|e].
  2:{ eexists. split; [cbn; rewrite <- !app_assoc; reflexivity|].
      split; [|by split].
      intros i n. cbn. split.
      - intros [H|[H|[[= -> ->]|[H|[H|[]]]]]]; try discriminate. done.
      - intros (-> & -> & _). tauto. }
  destruct (sortAllLevels_outcome ext (sortType r)) as [[]|e].
  2:{ eexists. split; [cbn; rewrite <- !app_assoc; reflexivity|].
      split; [|by split].
      intros i n. cbn. split.
      - intros [H|[H|[[= -> ->]|[H|[H|[H|[]]]]]]]; try discriminate. done.
      - intros (-> & -> & _). tauto. }
  pose proof (remappedPath_file r node renamed) as Hfile.
  pose proof (remappedPath_folder r node renamed) as Hfolder.
  pose proof (remappedPath_none r node renamed) as Hnone.
  destruct (remappedPath r node renamed) as [p|];
    destruct (negb (streq (name renamed) newName));
    (eexists; split; [cbn; rewrite <- !app_assoc; reflexivity|]);
    (split;
     [ intros i n; cbn; split;
       [ intros H; repeat (destruct H as [H|H]; try discriminate H);
         [injection H as -> ->; done | destruct H]
       | intros (-> & -> & _); tauto ]
     | cbn zeta; unfold activePathSetTo, activePathKept; cbn;
       split; [|split];
       [ intros Ht Ha; specialize (Hfile Ht Ha); by simplify_eq
       | intros Ht suffix Ha; specialize (Hfolder suffix Ht Ha); by simplify_eq
       | intros H1 H2; specialize (Hnone H1 H2); by simplify_eq ] ]).
Qed.

Lemma handleRenameNode_active_path_witness :
  storeActiveFilePath
    (snd (handleRenameNode renaming sample (js "n1") (js "b") idle))
  = Some (js "/notes/b.md").
Proof.
  destruct (handleRenameNode_active_path renaming sample (js "n1") (js "b") idle)
    as (_ & calls & _ & _ & H).
  change (successfulRename renaming sample (js "n1") (js "b"))
    with (Some (aNote, bNote)) in H.
  destruct H as [Hfile _].
  exact (proj2 (Hfile eq_refl eq_refl)).
Defined.

(** C7, as stated, fails when the resort that follows the rename rejects:
    [renameNode] is called and resolves with the renamed file, whose old
    external path is the active file path, yet nothing is dispatched and
    the active file path stays the old one. *)
Lemma handleRenameNode_failed_resort_keeps_path :
  let w := set_storeActiveFilePath (Some (js "/notes/a.md")) idle in
  let out := handleRenameNode resortFailing sample (js "n1") (js "b") w in
  getNotesTree_outcome resortFailing = Resolved [aNote]
  /\ findNodeById [aNote] (js "n1") = Some aNote
  /\ name aNote <> js "b"
  /\ renameNode_outcome resortFailing (js "n1") (js "b") = Resolved bNote
  /\ type bNote = file
  /\ activeFilePath sample = Some (externalPath aNote)
  /\ trace (snd out) =
       [CallGetNotesTree;
        CallLogger lvlDebug "Operation started:";
        CallRenameNode (js "n1") (js "b");
        CallSortAllLevels (js "sort_a2z");
        CallLogger lvlDebug "Operation completed:";
        CallLogger lvlError "Failed to rename node:"]
  /\ dispatched (trace (snd out)) = []
  /\ storeActiveFilePath (snd out) = Some (js "/notes/a.md")
  /\ storeActiveFilePath (snd out) <> Some (externalPath bNote).
Proof.
  intros w out. subst out. rewrite handleRenameNode_run.
  repeat split; try reflexivity; vm_compute; discriminate.
Qed.

(** ** The slash-command suggestion *)

(** C8: on Shift+Enter [onKeyDown] prevents the default action once,
    inserts exactly the line feed through one
    [chain().focus().insertContent().run()] and returns [true]; on every
    other key, Enter without Shift included, it returns [false] and calls
    neither the editor nor [preventDefault]. *)
Theorem onKeyDown_shift_enter (event : KeyboardEvent) :
  (key event = js "Enter" /\ shiftKey event = true ->
     fst (onKeyDown event) = true
     /\ snd (onKeyDown event) =
          [preventDefault; chain; focus; insertContent newline; run]
     /\ calledTimes preventDefault (snd (onKeyDown event)) = 1
     /\ calledTimes chain (snd (onKeyDown event)) = 1
     /\ calledTimes focus (snd (onKeyDown event)) = 1
     /\ insertedContents (snd (onKeyDown event)) = [[10%N]]
     /\ calledTimes run (snd (onKeyDown event)) = 1)
  /\ (~ (key event = js "Enter" /\ shiftKey event = true) ->
      onKeyDown event = (false, [])).
Proof.
  unfold onKeyDown. split.
  - intros [-> ->]. cbn. repeat split.
  - intros Hother.
    destruct (streq (key event) (js "Enter")) eqn:Hkey; [|done].
    destruct (shiftKey event); [|done].
    apply streq_eq in Hkey. tauto.
Qed.

(** The two cases of the test suite: Shift+Enter is handled, Enter alone is
    ignored. *)
Lemma onKeyDown_shift_enter_witness :
  (fst (onKeyDown (mkKeyboardEvent (js "Enter") true)) = true
   /\ calledTimes preventDefault (snd (onKeyDown (mkKeyboardEvent (js "Enter") true))) = 1
   /\ insertedContents (snd (onKeyDown (mkKeyboardEvent (js "Enter") true))) = [[10%N]])
  /\ onKeyDown (mkKeyboardEvent (js "Enter") false) = (false, []).
Proof.
  split.
  - destruct (onKeyDown_shift_enter (mkKeyboardEvent (js "Enter") true))
      as [Hhandled _].
    destruct Hhandled as (H1 & _ & H2 & _ & _ & H3 & _); [by split|].
    by repeat split.
  - destruct (onKeyDown_shift_enter (mkKeyboardEvent (js "Enter") false))
      as [_ Hignored].
    apply Hignored. intros [_ H]. discriminate H.
Defined.

(** ** The character count *)

Lemma existsb_isTagClose (s : jsstr) :
  existsb isTagClose s = true <-> In 62%N s.
Proof.
  rewrite existsb_exists. unfold isTagClose. split.
  - intros (x & Hx & E%N.eqb_eq). by subst.
  - intros H. exists 62%N. by split.
Qed.

Lemma stripTags_from_In (inside : bool) (s : jsstr) (x : N) :
  In x (stripTags_from inside s) -> In x s.
Proof.
  revert inside. induction s as [|c s IH]; intros inside; simpl; [done|].
  destruct inside.
  - destruct (isTagClose c); intros H%IH; by right.
  - destruct (isTagOpen c && existsb isTagClose s).
    + intros H%IH. by right.
    + intros [->|H%IH]; [by left | by right].
Qed.

Lemma stripTags_from_length (inside : bool) (s : jsstr) :
  length (stripTags_from inside s) <= length s.
Proof.
  revert inside. induction s as [|c s IH]; intros inside; simpl; [done|].
  destruct inside.
  - destruct (isTagClose c); [specialize (IH false) | specialize (IH true)]; lia.
  - destruct (isTagOpen c && existsb isTagClose s); simpl;
      [specialize (IH true) | specialize (IH false)]; lia.
Qed.

Lemma noCompleteTag_cons (c : N) (s : jsstr) :
  noCompleteTag s -> (c = 60%N -> ~ In 62%N s) -> noCompleteTag (c :: s).
Proof.
  intros Hs Hc a b E. destruct a as [|x a]; simpl in E.
  - injection E as -> ->. by apply Hc.
  - injection E as -> ->. by apply (Hs a b).
Qed.

Lemma noCompleteTag_tail (c : N) (s : jsstr) :
  noCompleteTag (c :: s) -> noCompleteTag s.
Proof. intros H a b ->. by apply (H (c :: a) b). Qed.

Lemma stripTags_from_noCompleteTag (inside : bool) (s : jsstr) :
  noCompleteTag (stripTags_from inside s).
Proof.
  revert inside. induction s as [|c s IH]; intros inside; simpl.
  - intros a b E. by destruct a.
  - destruct inside.
    + destruct (isTagClose c); apply IH.
    + destruct (isTagOpen c && existsb isTagClose s) eqn:E; [apply IH|].
      apply noCompleteTag_cons; [apply IH|].
      intros -> Hin%stripTags_from_In. apply existsb_isTagClose in Hin.
      rewrite Hin in E. done.
Qed.

Lemma stripTags_noCompleteTag_id (s : jsstr) :
  noCompleteTag s -> stripTags s = s.
Proof.
  unfold stripTags. induction s as [|c s IH]; intros H; simpl; [done|].
  destruct (isTagOpen c && existsb isTagClose s) eqn:E.
  - apply andb_prop in E as [Hc%N.eqb_eq Hs%existsb_isTagClose]. subst c.
    destruct (H [] s eq_refl Hs).
  - f_equal. apply IH. by apply noCompleteTag_tail in H.
Qed.

Lemma stripTags_from_inside (tag rest : jsstr) :
  ~ In 62%N tag ->
  stripTags_from true (tag ++ 62%N :: rest) = stripTags rest.
Proof.
  induction tag as [|c tag IH]; intros H; simpl; [done|].
  destruct (isTagClose c) eqn:E.
  - apply N.eqb_eq in E. subst c. destruct H. by left.
  - apply IH. intros Hin. apply H. by right.
Qed.

(** X1: after [replace(/<[^>]*>/g, '')] no ['<'] of the result has a ['>']
    after it, so stripping again changes nothing; a text in which no ['<']
    is followed by a ['>'] is returned as it is; and the count never
    exceeds the length of the text. *)
Theorem stripTags_leaves_no_tag (s : jsstr) :
  noCompleteTag (stripTags s)
  /\ stripTags (stripTags s) = stripTags s
  /\ (noCompleteTag s -> stripTags s = s)
  /\ length (stripTags s) <= length s
  /\ (forall editorContent currentContent,
        updateCharCount editorContent currentContent
        <= length (default currentContent
                     (or_else editorContent (Some currentContent)))).
Proof.
  assert (H := stripTags_from_noCompleteTag false s). fold (stripTags s) in H.
  split; [done|]. split; [by apply stripTags_noCompleteTag_id|].
  split; [apply stripTags_noCompleteTag_id|].
  split; [apply stripTags_from_length|].
  intros. apply stripTags_from_length.
Qed.

Lemma stripTags_leaves_no_tag_witness :
  stripTags (js "2 < 3") = js "2 < 3".
Proof.
  destruct (stripTags_leaves_no_tag (js "2 < 3")) as (_ & _ & Hid & _).
  apply Hid. intros a b E Hin.
  assert (Hall : In 62%N (js "2 < 3")).
  { rewrite E. apply in_or_app. right. by right. }
  vm_compute in Hall. intuition discriminate.
Defined.

(** X2: text without ['<'] in front of a tag is kept, the tag is removed
    from its ['<'] to the first ['>'] after it, whatever stands in between,
    and the scan goes on behind it. *)
Theorem stripTags_removes_tag (text tag rest : jsstr) :
  ~ In 60%N text ->
  ~ In 62%N tag ->
  stripTags (text ++ 60%N :: tag ++ 62%N :: rest) = text ++ stripTags rest.
Proof.
  intros Htext Htag. unfold stripTags.
  induction text as [|c text IH]; simpl.
  - assert (E : existsb isTagClose (tag ++ 62%N :: rest) = true).
    { apply existsb_isTagClose, in_or_app. right. by left. }
    rewrite E. by apply stripTags_from_inside.
  - destruct (isTagOpen c) eqn:E.
    + apply N.eqb_eq in E. subst c. destruct Htext. by left.
    + simpl. f_equal. apply IH. intros Hin. apply Htext. by right.
Qed.

Lemma stripTags_removes_tag_witness :
  stripTags (js "Hello " ++ 60%N :: js "b class='x'" ++ 62%N :: js "world")
  = js "Hello " ++ stripTags (js "world").
Proof.
  apply stripTags_removes_tag.
  - vm_compute. intuition discriminate.
  - vm_compute. intuition discriminate.
Defined.

(** ** The folder new items go to *)

(** X3: new notes and folders go to the external path of the selected
    folder when the selected id is not empty and the node [findNodeById]
    finds for it in the current tree is a folder; in every other case they
    go to the notes root: with nothing selected, with an empty id, with an
    id no node has, and with the id of a file. *)
Theorem getTargetFolderPath_root_or_folder (r : Render)
    (selectedFolderId : option jsstr) :
  (forall sel node,
     selectedFolderId = Some sel -> sel <> [] ->
     findNodeById (notesTree r) sel = Some node -> type node = folder ->
     getTargetFolderPath r selectedFolderId = externalPath node)
  /\ ((forall sel node,
         selectedFolderId = Some sel -> sel <> [] ->
         findNodeById (notesTree r) sel = Some node -> type node <> folder) ->
      getTargetFolderPath r selectedFolderId = notesPath r)
  /\ getTargetFolderPath r None = notesPath r
  /\ getTargetFolderPath r (Some []) = notesPath r
  /\ (forall sel,
        Forall (fun n => id n <> sel) (preorder (notesTree r)) ->
        getTargetFolderPath r (Some sel) = notesPath r)
  /\ (forall sel node,
        findNodeById (notesTree r) sel = Some node -> type node = file ->
        getTargetFolderPath r (Some sel) = notesPath r).
Proof.
  unfold getTargetFolderPath.
  split; [|split; [|split; [done|split; [done|split]]]].
  - intros sel node -> Hsel Hfind Ht. simpl.
    destruct sel; [done|]. cbn [truthy negb]. simpl.
    simpl in Hfind. rewrite Hfind, Ht. done.
  - intros Hnone. destruct selectedFolderId as [sel|]; [|done]. simpl.
    destruct sel as [|c sel]; [done|]. cbn [truthy].
    destruct (findNodeById (notesTree r) (c :: sel)) as [node|] eqn:Hfind;
      [|done].
    destruct (NodeType_eqb (type node) folder) eqn:Ht; [|done].
    apply NodeType_eqb_eq in Ht. by destruct (Hnone (c :: sel) node).
  - intros sel Hnone. simpl. destruct (truthy sel); [|done].
    rewrite findNodeById_find.
    destruct (List.find _ _) as [node|] eqn:Hfind; [|done].
    apply find_some in Hfind as [Hin Hid%streq_eq].
    rewrite Forall_forall in Hnone. destruct (Hnone node); [|done].
    by apply list_elem_of_In.
  - intros sel node Hfind Ht. simpl. destruct (truthy sel); [|done].
    rewrite Hfind, Ht. done.
Qed.

(** With the folder [d1] selected the target is [/notes/docs]; with the
    note [n1] selected it is the root. *)
Lemma getTargetFolderPath_root_or_folder_witness :
  getTargetFolderPath sampleDocs (Some (js "d1")) = js "/notes/docs"
  /\ getTargetFolderPath sampleDocs (Some (js "n1")) = js "/notes".
Proof.
  split.
  - destruct (getTargetFolderPath_root_or_folder sampleDocs (Some (js "d1")))
      as (Hfolder & _).
    apply (Hfolder (js "d1") docsFolder); try reflexivity. discriminate.
  - destruct (getTargetFolderPath_root_or_folder sampleDocs (Some (js "n1")))
      as (_ & _ & _ & _ & _ & Hfile).
    apply (Hfile (js "n1") aNote); reflexivity.
Defined.

(** ** Clearing a stale selection *)

Lemma clearStaleActivePath_run (r : Render) (activeNode : option NotesTreeNode)
    (w : World) :
  clearStaleActivePath r activeNode w =
    (Resolved tt,
     if negb (length (notesTree r) =? 0)
        && truthy_opt (activeFilePath r)
        && negb (bool_decide (is_Some activeNode))
        && negb (isSyncingTree w)
        && negb (hasPendingOperations w)
     then noteReducer (setActiveFilePath None)
            (record (CallDispatch (setActiveFilePath None))
               (record (CallLogger lvlWarn
                          "Clearing activeFilePath - node not found in tree") w))
     else w).
Proof.
  unfold clearStaleActivePath.
  destruct (length (notesTree r) =? 0); [done|].
  cbv [bind gets]. cbn [negb andb].
  destruct (truthy_opt (activeFilePath r) && negb (bool_decide (is_Some activeNode))
            && negb (isSyncingTree w) && negb (hasPendingOperations w));
    reflexivity.
Qed.

(** X4: the effect clears the active file path (one warning, one
    [setActiveFilePath(undefined)]) exactly when the tree is not empty, an
    active file path is set, no node matches it, no resync is running and
    no operation is pending; in every other case it calls nothing and
    changes nothing.  In particular, run while an operation wrapped by
    [withOperation] is in progress, it never clears the path. *)
Theorem clearStaleActivePath_guarded (r : Render)
    (activeNode : option NotesTreeNode) (w : World) :
  let out := clearStaleActivePath r activeNode w in
  fst out = Resolved tt
  /\ (notesTree r <> [] -> truthy_opt (activeFilePath r) = true ->
      activeNode = None -> isSyncingTree w = false ->
      pendingOperations w = ∅ ->
      trace (snd out) =
        trace w ++ [CallLogger lvlWarn
                      "Clearing activeFilePath - node not found in tree";
                    CallDispatch (setActiveFilePath None)]
      /\ storeActiveFilePath (snd out) = None)
  /\ (notesTree r = [] \/ truthy_opt (activeFilePath r) = false
      \/ is_Some activeNode \/ isSyncingTree w = true
      \/ pendingOperations w <> ∅ ->
      snd out = w)
  /\ (forall operationId,
        let during := withOperation operationId
                        (clearStaleActivePath r activeNode) w in
        storeActiveFilePath (snd during) = storeActiveFilePath w
        /\ exists logs, trace (snd during) = trace w ++ logs
                        /\ forallb isLoggerCall logs = true).
Proof.
  intros out. subst out. rewrite clearStaleActivePath_run. cbn [fst snd].
  split; [done|]. split; [|split].
  - intros Htree Hpath -> Hsync Hpend%hasPendingOperations_false.
    rewrite Hpath, Hsync, Hpend.
    destruct (notesTree r); [done|]. simpl. by rewrite <- app_assoc.
  - intros [Htree | [Hpath | [Hnode | [Hsync | Hpend%hasPendingOperations_true]]]].
    + by rewrite Htree.
    + by rewrite Hpath, andb_false_r.
    + rewrite (bool_decide_eq_true_2 _ Hnode). by rewrite !andb_false_r.
    + by rewrite Hsync, !andb_false_r.
    + by rewrite Hpend, !andb_false_r.
  - intros operationId. rewrite withOperation_run.
    rewrite clearStaleActivePath_run. cbn [fst snd].
    assert (Hpend : hasPendingOperations (started operationId w) = true).
    { apply hasPendingOperations_true. unfold started. simpl.
      intros E. apply (not_elem_of_empty (C:=gset (list N)) operationId).
      rewrite <- E. apply elem_of_union_l, elem_of_singleton. reflexivity. }
    rewrite Hpend, !andb_false_r. simpl. split; [done|].
    eexists. rewrite <- !app_assoc. by split.
Qed.

Lemma clearStaleActivePath_guarded_witness :
  trace (snd (clearStaleActivePath sample None idle)) =
    trace idle ++ [CallLogger lvlWarn
                     "Clearing activeFilePath - node not found in tree";
                   CallDispatch (setActiveFilePath None)]
  /\ storeActiveFilePath (snd (clearStaleActivePath sample None idle)) = None.
Proof.
  destruct (clearStaleActivePath_guarded sample None idle) as (_ & Hclear & _).
  apply Hclear; [discriminate | reflexivity | reflexivity | reflexivity
                 | reflexivity].
Defined.

(** ** Sorting *)

(** X5: [handleSortNodes] first dispatches the new sort type and then
    resorts; unlike the other handlers it passes a failure on: when the
    resort rejects, the error is logged and the handler rejects with the
    same error, the sort type having been dispatched already. *)
Theorem handleSortNodes_rethrows (ext : Externals) (newSortType : NotesSortType)
    (w : World) :
  let out := handleSortNodes ext newSortType w in
  fst out = match sortAllLevels_outcome ext newSortType with
            | Resolved _ => Resolved tt
            | Rejected e => Rejected e
            end
  /\ trace (snd out) =
       trace w
       ++ [CallDispatch (setSortType newSortType);
           CallSortAllLevels newSortType]
       ++ match sortAllLevels_outcome ext newSortType with
          | Resolved _ => []
          | Rejected _ => [CallLogger lvlError "Failed to sort notes:"]
          end
  /\ storeActiveFilePath (snd out) = storeActiveFilePath w
  /\ pendingOperations (snd out) = pendingOperations w.
Proof.
  unfold handleSortNodes.
  cbv [tryCatch bind dispatch modify sortAllLevels call logger emit throw
       noteReducer].
  destruct (sortAllLevels_outcome ext newSortType) as [[]|e]; simpl;
    rewrite <- ?app_assoc; done.
Qed.

(** ** Trimming and saving *)

Lemma trimStart_app_ws (ws s : jsstr) :
  forallb isWhiteSpace ws = true -> trimStart (ws ++ s) = trimStart s.
Proof.
  induction ws as [|c ws IH]; simpl; [done|].
  intros [Hc Hws]%andb_prop. rewrite Hc. by apply IH.
Qed.

Lemma trimStart_ws (ws : jsstr) :
  forallb isWhiteSpace ws = true -> trimStart ws = [].
Proof.
  intros H. rewrite <- (app_nil_r ws). by rewrite trimStart_app_ws.
Qed.

Lemma trimStart_app_nonempty (s t : jsstr) :
  trimStart s <> [] -> trimStart (s ++ t) = trimStart s ++ t.
Proof.
  induction s as [|c s IH]; simpl; [done|].
  destruct (isWhiteSpace c); [apply IH | done].
Qed.

Lemma trimStart_nil_ws (s : jsstr) :
  trimStart s = [] -> forallb isWhiteSpace s = true.
Proof.
  induction s as [|c s IH]; simpl; [done|].
  destruct (isWhiteSpace c); [apply IH | done].
Qed.

Lemma forallb_rev {A} (f : A -> bool) (l : list A) :
  forallb f (rev l) = forallb f l.
Proof.
  induction l as [|a l IH]; simpl; [done|].
  rewrite forallb_app, IH. simpl. rewrite andb_true_r. apply andb_comm.
Qed.

Lemma trimEnd_app_ws (s ws : jsstr) :
  forallb isWhiteSpace ws = true -> trimEnd (s ++ ws) = trimEnd s.
Proof.
  intros H. unfold trimEnd. rewrite rev_app_distr.
  rewrite trimStart_app_ws; [done|]. by rewrite forallb_rev.
Qed.

Lemma trim_pad (ws1 s ws2 : jsstr) :
  forallb isWhiteSpace ws1 = true -> forallb isWhiteSpace ws2 = true ->
  trim (ws1 ++ s ++ ws2) = trim s.
Proof.
  intros H1 H2. unfold trim. rewrite trimStart_app_ws by done.
  destruct (trimStart s) as [|c t] eqn:E.
  - rewrite trimStart_ws; [done|].
    rewrite forallb_app, H2, andb_true_r. by apply trimStart_nil_ws.
  - rewrite trimStart_app_nonempty by (rewrite E; done).
    rewrite E. by apply trimEnd_app_ws.
Qed.

(** X6: an edit that differs from the cached content only by white space
    at its ends is not saved: [saveCurrentNote] makes no call, whatever the
    target path. *)
Theorem saveCurrentNote_ignores_outer_whitespace (ext : Externals) (r : Render)
    (ws1 ws2 : jsstr) (filePath : option jsstr) (w : World) :
  forallb isWhiteSpace ws1 = true ->
  forallb isWhiteSpace ws2 = true ->
  saveCurrentNote ext r (ws1 ++ currentContent r ++ ws2) filePath w
  = (Resolved tt, w).
Proof.
  intros H1 H2. unfold saveCurrentNote.
  rewrite trim_pad by done. rewrite streq_refl, orb_true_r. reflexivity.
Qed.

Lemma saveCurrentNote_ignores_outer_whitespace_witness :
  saveCurrentNote calm sample
    (js " " ++ currentContent sample ++ [10%N; 9%N]) None idle
  = (Resolved tt, idle).
Proof.
  apply (saveCurrentNote_ignores_outer_whitespace calm sample (js " ")
           [10%N; 9%N] None idle); reflexivity.
Defined.

(** X7: a path passed to [saveCurrentNote] takes precedence over the
    active file path: with a non-empty [filePath] argument the run is the
    same whatever file is active, and every write it makes goes to that
    path. *)
Theorem saveCurrentNote_explicit_path_wins (ext : Externals) (r : Render)
    (content p : jsstr) (otherActive : option jsstr) (w : World) :
  p <> [] ->
  let r' := mkRender (notesPath r) otherActive (sortType r)
              (currentContent r) (notesTree r) in
  saveCurrentNote ext r' content (Some p) w
  = saveCurrentNote ext r content (Some p) w
  /\ exists calls,
       trace (snd (saveCurrentNote ext r content (Some p) w)) = trace w ++ calls
       /\ forall path text,
            In (CallFileWrite path text) calls -> path = p /\ text = content.
Proof.
  intros Hp r'. split.
  - unfold saveCurrentNote, or_else. simpl. by destruct p.
  - rewrite saveCurrentNote_run. eexists. split; [reflexivity|].
    intros path text. unfold saveCalls, or_else. simpl.
    destruct p; [done|]. simpl.
    destruct (negb (streq (trim content) (trim (currentContent r))));
      [|done].
    destruct (fileWrite_outcome ext _ content); simpl;
      intros [[= <- <-]|[H|[]]]; try done; discriminate.
Qed.

Lemma saveCurrentNote_explicit_path_wins_witness :
  saveCurrentNote calm
    (mkRender (notesPath sample) (Some (js "/notes/other.md"))
       (sortType sample) (currentContent sample) (notesTree sample))
    (js "new") (Some (js "/notes/a.md")) idle
  = saveCurrentNote calm sample (js "new") (Some (js "/notes/a.md")) idle.
Proof.
  apply (saveCurrentNote_explicit_path_wins calm sample (js "new")
           (js "/notes/a.md") (Some (js "/notes/other.md")) idle).
  vm_compute. discriminate.
Defined.

(** ** The debounced save and leaving a file *)

Lemma elapse_run (ext : Externals) (r : Render) (ms : nat) (w : World) :
  elapse ext r ms w =
    (Resolved tt,
     let w1 := set_clock (clock w + ms) w in
     match debounceTimer w with
     | Some c =>
         if dueAt c <=? clock w + ms
         then recorded (saveCalls ext r (pendingContent c) (pendingFilePath c))
                (set_debounceTimer None w1)
         else w1
     | None => w1
     end).
Proof.
  unfold elapse. cbv [bind modify gets]. simpl.
  destruct (debounceTimer w) as [c|]; simpl; [|done].
  destruct (dueAt c <=? clock w + ms); simpl; [|done].
  unfold tryCatch. rewrite saveCurrentNote_run. reflexivity.
Qed.

Lemma fileSwitchCleanup_holding_run (held : DebounceInstance)
    (ext : Externals) (r : Render) (w : World) :
  fileSwitchCleanup_holding held ext r w =
    (Resolved tt,
     let saved :=
       if truthy (lastContent w) && truthy_opt (lastFilePath w)
       then recorded (saveCalls ext r (lastContent w) (lastFilePath w)) w
       else w in
     set_lastFilePath None
       (set_lastContent []
          match held with
          | armedInstance => set_debounceTimer None saved
          | earlierInstance => saved
          end)).
Proof.
  unfold fileSwitchCleanup_holding. cbv [bind gets].
  destruct (truthy (lastContent w) && truthy_opt (lastFilePath w)).
  - unfold tryCatch. rewrite saveCurrentNote_run. by destruct held.
  - by destruct held.
Qed.

Lemma fileSwitchCleanup_run (ext : Externals) (r : Render) (w : World) :
  fileSwitchCleanup ext r w =
    (Resolved tt,
     set_lastFilePath None
       (set_lastContent []
          (set_debounceTimer None
             (if truthy (lastContent w) && truthy_opt (lastFilePath w)
              then recorded (saveCalls ext r (lastContent w) (lastFilePath w)) w
              else w)))).
Proof. apply fileSwitchCleanup_holding_run. Qed.

(** X8: the debounced save runs once per burst of edits: when 800 ms have
    passed since the last edit the save runs with that edit's content and
    path and the timer is cleared, and no amount of further waiting makes
    another call. *)
Theorem debouncedSave_runs_once (ext : Externals) (r : Render)
    (content : jsstr) (ms later : nat) (w : World) :
  800 <= ms ->
  let edited := snd (handleMarkdownChange r content w) in
  let fired := snd (elapse ext r ms edited) in
  lastContent edited = content
  /\ lastFilePath edited = activeFilePath r
  /\ trace fired =
       trace (snd (saveCurrentNote ext r content (activeFilePath r) w))
  /\ debounceTimer fired = None
  /\ trace (snd (elapse ext r later fired)) = trace fired.
Proof.
  intros Hms edited fired. subst fired edited.
  rewrite handleMarkdownChange_run, !elapse_run, saveCurrentNote_run.
  cbn [snd]. simpl. unfold debounceWait.
  destruct (Nat.leb_spec (clock w + 800) (clock w + ms)); [|lia].
  simpl. done.
Qed.

Lemma debouncedSave_runs_once_witness :
  trace (snd (elapse calm sample 5000
                (snd (elapse calm sample 800
                        (snd (handleMarkdownChange sample (js "new") idle))))))
  = trace (snd (elapse calm sample 800
                  (snd (handleMarkdownChange sample (js "new") idle)))).
Proof.
  apply (debouncedSave_runs_once calm sample (js "new") 800 5000 idle). lia.
Defined.

(** X9: whatever state the page is in, the cleanup run on leaving a file
    resolves and resets both refs; the only calls it makes are those of one
    [saveCurrentNote] with the content and path of the last edit, and it
    makes them only when both are set.  Its [cancel()] reaches the debounce
    instance its closure holds and no other: when that is the instance the
    edits armed, the timer is cleared and no later timer can write; when it
    is an instance of an earlier render, the armed timer is left as it
    is. *)
Theorem fileSwitchCleanup_cancels_held_instance (held : DebounceInstance)
    (ext : Externals) (r : Render) (w : World) :
  let left := snd (fileSwitchCleanup_holding held ext r w) in
  fst (fileSwitchCleanup_holding held ext r w) = Resolved tt
  /\ lastContent left = []
  /\ lastFilePath left = None
  /\ trace left =
       (if truthy (lastContent w) && truthy_opt (lastFilePath w)
        then trace (snd (saveCurrentNote ext r (lastContent w)
                           (lastFilePath w) w))
        else trace w)
  /\ (held = armedInstance ->
      debounceTimer left = None
      /\ forall ms, trace (snd (elapse ext r ms left)) = trace left)
  /\ (held = earlierInstance -> debounceTimer left = debounceTimer w).
Proof.
  intros left. subst left. rewrite fileSwitchCleanup_holding_run.
  cbn [fst snd].
  split; [done|]. split; [done|]. split; [done|]. split; [|split].
  - destruct held;
      destruct (truthy (lastContent w) && truthy_opt (lastFilePath w));
      by rewrite ?saveCurrentNote_run.
  - intros ->. split; [done|]. intros ms. rewrite elapse_run. simpl. done.
  - intros ->. simpl.
    by destruct (truthy (lastContent w) && truthy_opt (lastFilePath w)).
Qed.

(** An edit is pending when the file is left: the cleanup that holds the
    armed instance clears the timer, the one that holds an earlier instance
    leaves it armed. *)
Lemma fileSwitchCleanup_cancels_held_instance_witness :
  let edited := snd (handleMarkdownChange sample (js "new") idle) in
  debounceTimer (snd (fileSwitchCleanup_holding armedInstance calm sample edited))
  = None
  /\ debounceTimer
       (snd (fileSwitchCleanup_holding earlierInstance calm sample edited))
     = Some (mkDebouncedCall 800 (js "new") (Some (js "/notes/a.md"))).
Proof.
  intros edited. split.
  - destruct (fileSwitchCleanup_cancels_held_instance armedInstance calm
                sample edited) as (_ & _ & _ & _ & Harmed & _).
    apply Harmed. reflexivity.
  - destruct (fileSwitchCleanup_cancels_held_instance earlierInstance calm
                sample edited) as (_ & _ & _ & _ & _ & Hearlier).
    rewrite Hearlier; reflexivity.
Defined.

(** X10: an edit followed by a file switch before the 800 ms are over is
    not lost: the cleanup of the same render saves it at once, with the
    path the edit was made for, and the debounced save, being cancelled,
    writes nothing later. *)
Theorem fileSwitchCleanup_saves_pending_edit (ext : Externals) (r : Render)
    (content : jsstr) (ms later : nat) (w : World) :
  content <> [] -> ms < 800 ->
  let edited := snd (handleMarkdownChange r content w) in
  let waited := snd (elapse ext r ms edited) in
  let left := snd (fileSwitchCleanup ext r waited) in
  trace waited = trace w
  /\ trace left =
       trace (snd (saveCurrentNote ext r content (activeFilePath r) w))
  /\ trace (snd (elapse ext r later left)) = trace left.
Proof.
  intros Hcontent Hms edited waited left. subst left waited edited.
  rewrite handleMarkdownChange_run, fileSwitchCleanup_run, !elapse_run,
    saveCurrentNote_run.
  cbn [snd]. simpl. unfold debounceWait.
  destruct (Nat.leb_spec (clock w + 800) (clock w + ms)); [lia|]. simpl.
  split; [done|].
  assert (Htruthy : truthy content = true) by (by destruct content).
  rewrite Htruthy. cbn [andb].
  destruct (truthy_opt (activeFilePath r)) eqn:Hp; simpl; [done|].
  split; [|done].
  unfold saveCalls, or_else. rewrite Hp.
  destruct (activeFilePath r) as [p|]; [|by rewrite app_nil_r].
  simpl in Hp. rewrite Hp. simpl. by rewrite app_nil_r.
Qed.

Lemma fileSwitchCleanup_saves_pending_edit_witness :
  trace (snd (fileSwitchCleanup calm sample
                (snd (elapse calm sample 100
                        (snd (handleMarkdownChange sample (js "new") idle))))))
  = trace (snd (saveCurrentNote calm sample (js "new")
                  (activeFilePath sample) idle)).
Proof.
  destruct (fileSwitchCleanup_saves_pending_edit calm sample (js "new")
              100 0 idle) as (_ & Hsaved & _);
    [vm_compute; discriminate | lia | exact Hsaved].
Defined.



(** ** More on the file watcher *)

Lemma handleFileChange_other (ext : Externals) (r : Render)
    (data : FileChangeEvent) (w : World) :
  truthy (notesPath r) = true ->
  isStructuralEvent (eventType data) = false ->
  handleFileChange ext r data w =
    (Resolved tt,
     recorded
       (if streq (eventType data) (js "change") then
          if opt_streq (activeFilePath r) (filePath data) then []
          else CallInitWorkSpace (notesPath r) (sortType r) ::
               match initWorkSpace_outcome ext (notesPath r) (sortType r) with
               | Resolved _ => []
               | Rejected _ =>
                   [CallLogger lvlError "Failed to handle file change:"]
               end
        else [CallLogger lvlDebug "Unhandled file event type:"]) w).
Proof.
  intros Hpath Hev.
  unfold handleFileChange, handleFileChange_awaiting, tryCatch at 1, bind at 1, gets.
  rewrite Hpath. cbv beta. cbn [negb]. rewrite Hev. cbn [andb].
  change (includes _ (eventType data)) with (isStructuralEvent (eventType data)).
  rewrite Hev.
  destruct (streq (eventType data) (js "change")).
  - destruct (opt_streq (activeFilePath r) (filePath data)).
    + cbv [tryCatch ret]. by rewrite recorded_nil.
    + cbv [initWorkSpace call logger emit modify].
      destruct (initWorkSpace_outcome ext (notesPath r) (sortType r)) as [[]|];
        unfold recorded, record; simpl; rewrite <- ?app_assoc; reflexivity.
  - cbv [logger emit modify]. reflexivity.
Qed.

(** The outcome of any run of the handler, by cases. *)
Lemma handleFileChange_cases (ext : Externals) (r : Render)
    (data : FileChangeEvent) (w : World) :
  handleFileChange ext r data w = (Resolved tt, w)
  \/ (exists calls,
        handleFileChange ext r data w = (Resolved tt, recorded calls w)
        /\ forall p, ~ In (CallInvalidateFileContent p) calls)
  \/ (handleFileChange ext r data w =
        (Resolved tt, synced ext r (syncing r (selectionCleared r data w)))
      /\ isStructuralEvent (eventType data) = true).
Proof.
  destruct (truthy (notesPath r)) eqn:Hpath;
    [|left; by apply handleFileChange_no_notesPath].
  destruct (isStructuralEvent (eventType data)) eqn:Hev.
  - destruct (hasPendingOperations w) eqn:Hpend.
    + right; left. eexists. split.
      * rewrite handleFileChange_suppressed by done. reflexivity.
      * intros p [H|[]]. discriminate.
    + right; right. split; [by apply handleFileChange_structural | done].
  - right; left. eexists. split; [by apply handleFileChange_other|].
    intros p.
    destruct (streq (eventType data) (js "change"));
      [destruct (opt_streq (activeFilePath r) (filePath data));
       [|destruct (initWorkSpace_outcome ext (notesPath r) (sortType r))]|];
      simpl; intuition discriminate.
Qed.

Lemma handleFileChange_during_withOperation_witness :
  storeActiveFilePath
    (snd (withOperation (js "renameNode:n1:b")
            (handleFileChange calm sample
               (mkFileChangeEvent (js "unlink") (js "/notes/a.md")))
            (set_storeActiveFilePath (Some (js "/notes/a.md")) idle)))
  = Some (js "/notes/a.md").
Proof.
  destruct (handleFileChange_during_withOperation calm sample
              (mkFileChangeEvent (js "unlink") (js "/notes/a.md"))
              (js "renameNode:n1:b")
              (set_storeActiveFilePath (Some (js "/notes/a.md")) idle))
    as (_ & H & _); [reflexivity | exact H].
Defined.

(** X12: the watcher callback is safe to call with any event in any state:
    it never rejects, it never touches the pending-operations set, the
    debounce timer or the edit refs, and it never leaves the tree-syncing
    flag set when it found it clear. *)
Theorem handleFileChange_never_rejects (ext : Externals) (r : Render)
    (data : FileChangeEvent) (w : World) :
  let out := handleFileChange ext r data w in
  fst out = Resolved tt
  /\ pendingOperations (snd out) = pendingOperations w
  /\ debounceTimer (snd out) = debounceTimer w
  /\ lastContent (snd out) = lastContent w
  /\ lastFilePath (snd out) = lastFilePath w
  /\ (isSyncingTree w = false -> isSyncingTree (snd out) = false).
Proof.
  intros out. subst out.
  destruct (handleFileChange_cases ext r data w)
    as [-> | [(calls & -> & _) | [-> _]]]; cbn [fst snd]; try done.
  unfold synced, syncing, selectionCleared.
  destruct (removesActive r data);
    destruct (initWorkSpace_outcome ext (notesPath r) (sortType r)); done.
Qed.

Lemma handleFileChange_never_rejects_witness :
  isSyncingTree
    (snd (handleFileChange failing sample
            (mkFileChangeEvent (js "unlinkDir") (js "/notes/a.md")) idle))
  = false.
Proof.
  destruct (handleFileChange_never_rejects failing sample
              (mkFileChangeEvent (js "unlinkDir") (js "/notes/a.md")) idle)
    as (_ & _ & _ & _ & _ & Hflag).
  apply Hflag. reflexivity.
Defined.

(** X13: no watcher event ever invalidates cached file content; in
    particular a [change] of the file that is open is ignored altogether:
    the handler makes no call and leaves the page as it is, whether or not
    operations are pending. *)
Theorem handleFileChange_never_invalidates (ext : Externals) (r : Render)
    (data : FileChangeEvent) (w : World) :
  let out := handleFileChange ext r data w in
  (exists calls,
     trace (snd out) = trace w ++ calls
     /\ forall p, ~ In (CallInvalidateFileContent p) calls)
  /\ (eventType data = js "change" ->
      activeFilePath r = Some (filePath data) ->
      out = (Resolved tt, w)).
Proof.
  intros out. subst out. split.
  - destruct (handleFileChange_cases ext r data w)
      as [-> | [(calls & -> & Hno) | [-> _]]]; cbn [snd].
    + exists []. split; [by rewrite app_nil_r | intros p []].
    + by exists calls.
    + unfold synced, syncing, selectionCleared.
      destruct (removesActive r data);
        destruct (initWorkSpace_outcome ext (notesPath r) (sortType r));
        simpl; eexists; rewrite <- ?app_assoc; (split; [reflexivity|]);
        simpl; intuition discriminate.
  - intros Hev Hactive%opt_streq_eq.
    destruct (truthy (notesPath r)) eqn:Hpath;
      [|by apply handleFileChange_no_notesPath].
    rewrite handleFileChange_other; [|done|by rewrite Hev].
    rewrite Hev, Hactive. change (streq (js "change") (js "change")) with true.
    cbn iota. by rewrite recorded_nil.
Qed.

Lemma handleFileChange_never_invalidates_witness :
  handleFileChange calm sample
    (mkFileChangeEvent (js "change") (js "/notes/a.md")) idle
  = (Resolved tt, idle).
Proof.
  destruct (handleFileChange_never_invalidates calm sample
              (mkFileChangeEvent (js "change") (js "/notes/a.md")) idle)
    as [_ Hignored].
  apply Hignored; reflexivity.
Defined.

(** ** More on renaming *)

(** X14: [handleRenameNode] never rejects and releases its pending id on
    every path: when a rename was attempted the pending set ends as the set
    it found without the id of this rename, otherwise as it found it; the
    tree-syncing flag is never touched. *)
Theorem handleRenameNode_releases_pending_id (ext : Externals) (r : Render)
    (nodeId newName : jsstr) (w : World) :
  let out := handleRenameNode ext r nodeId newName w in
  let opId := js "renameNode:" ++ nodeId ++ js ":" ++ newName in
  fst out = Resolved tt
  /\ (pendingOperations (snd out) = pendingOperations w
      \/ pendingOperations (snd out) = pendingOperations w ∖ {[opId]})
  /\ (opId ∉ pendingOperations w ->
      pendingOperations (snd out) = pendingOperations w)
  /\ isSyncingTree (snd out) = isSyncingTree w.
Proof.
  intros out opId. subst out. rewrite handleRenameNode_run. cbn [fst snd].
  split; [done|].
  assert (Hdiff : forall X : gset (list N),
            ({[opId]} ∪ X) ∖ {[opId]} = X ∖ {[opId]}) by set_solver.
  assert (Hcases :
    pendingOperations (afterRename ext r nodeId newName w) = pendingOperations w
    \/ pendingOperations (afterRename ext r nodeId newName w)
       = pendingOperations w ∖ {[opId]}).
  { unfold afterRename.
    change (renameOperationId nodeId newName) with opId.
    destruct (getNotesTree_outcome ext) as [tree|]; [|by left].
    destruct (findNodeById tree nodeId) as [node|]; [|by left].
    destruct (streq (name node) newName); [by left|].
    right.
    destruct (renameNode_outcome ext nodeId newName) as [renamed|];
      [|simpl; apply Hdiff].
    destruct (sortAllLevels_outcome ext (sortType r)); [|simpl; apply Hdiff].
    destruct (remappedPath r node renamed);
      destruct (negb (streq (name renamed) newName)); simpl; apply Hdiff. }
  split; [exact Hcases|]. split.
  - intros Hfresh. destruct Hcases as [-> | ->]; [done|set_solver].
  - unfold afterRename.
    destruct (getNotesTree_outcome ext) as [tree|]; [|done].
    destruct (findNodeById tree nodeId) as [node|]; [|done].
    destruct (streq (name node) newName); [done|].
    destruct (renameNode_outcome ext nodeId newName) as [renamed|]; [|done].
    destruct (sortAllLevels_outcome ext (sortType r)); [|done].
    destruct (remappedPath r node renamed);
      destruct (negb (streq (name renamed) newName)); done.
Qed.

Lemma handleRenameNode_releases_pending_id_witness :
  pendingOperations
    (snd (handleRenameNode renaming sample (js "n1") (js "b") idle))
  = pendingOperations idle.
Proof.
  destruct (handleRenameNode_releases_pending_id renaming sample (js "n1")
              (js "b") idle) as (_ & _ & Hrelease & _).
  apply Hrelease. apply not_elem_of_empty.
Defined.

(** A run that ends without a toast, for a rename that did not succeed. *)
Ltac no_toast :=
  eexists; split; [cbn; rewrite <- ?app_assoc; reflexivity|];
  intros o f; cbn; split;
  [ intros H; repeat (destruct H as [H|H]; try discriminate H); destruct H
  | intros (? & ? & ? & _); discriminate ].

(** X15: the user is told about a changed name exactly when the rename
    operation resolved and the node came back with a name other than the
    one asked for; the toast then carries the requested and the final
    name. *)
Theorem handleRenameNode_toast (ext : Externals) (r : Render)
    (nodeId newName : jsstr) (w : World) :
  let out := handleRenameNode ext r nodeId newName w in
  exists calls,
    trace (snd out) = trace w ++ calls
    /\ forall original final,
         In (CallToastInfo original final) calls <->
         exists node renamedNode,
           successfulRename ext r nodeId newName = Some (node, renamedNode)
           /\ name renamedNode <> newName
           /\ original = newName /\ final = name renamedNode.
Proof.
  intros out. subst out. rewrite handleRenameNode_run. cbn [snd].
  unfold afterRename, successfulRename.
  destruct (getNotesTree_outcome ext) as [tree|e]; [|no_toast].
  destruct (findNodeById tree nodeId) as [node|]; [|no_toast].
  destruct (streq (name node) newName); [no_toast|].
  destruct (renameNode_outcome ext nodeId newName) as [renamed|e]; [|no_toast].
  destruct (sortAllLevels_outcome ext (sortType r)) as [[]|e]; [|no_toast].
  destruct (streq (name renamed) newName) eqn:Hname; cbn [negb].
  - apply streq_eq in Hname.
    destruct (remappedPath r node renamed);
      (eexists; split; [cbn; rewrite <- ?app_assoc; reflexivity|]);
      intros o f; cbn; (split;
      [ intros H; repeat (destruct H as [H|H]; try discriminate H); destruct H
      | intros (n & rn & E & Hne & _); injection E as <- <-; done ]).
  - apply streq_neq in Hname.
    destruct (remappedPath r node renamed);
      (eexists; split; [cbn; rewrite <- ?app_assoc; reflexivity|]);
      intros o f; cbn; (split;
      [ intros H; repeat (destruct H as [H|H]; try discriminate H);
        [injection H as <- <-; eauto 10 | destruct H]
      | intros (n & rn & E & Hne & -> & ->); injection E as <- <-; tauto ]).
Qed.

(** ** The handlers that reach further services *)

Lemma pushCalls_nil (p : Page) : pushCalls [] p = p.
Proof. destruct p. unfold pushCalls. simpl. by rewrite app_nil_r. Qed.

Lemma pushCalls_pushCalls (cs1 cs2 : list PageCall) (p : Page) :
  pushCalls cs2 (pushCalls cs1 p) = pushCalls (cs1 ++ cs2) p.
Proof. unfold pushCalls. simpl. by rewrite app_assoc. Qed.

Lemma liftW_run {A} (m : M A) (p : Page) (res : Result A) (w' : World)
    (cs : list Effect) :
  m (world p) = (res, w') -> trace w' = trace (world p) ++ cs ->
  liftW m p = (res, pushCalls (map Core cs) (set_world w' p)).
Proof.
  intros Hrun Htrace. unfold liftW. rewrite Hrun, Htrace.
  by rewrite drop_app_length.
Qed.

Lemma liftW_call {A} (e : Effect) (outcome : Result A) (p : Page) :
  liftW (call e outcome) p =
    (outcome, pushCalls [Core e] (set_world (record e (world p)) p)).
Proof. by apply (liftW_run _ _ _ _ [e]). Qed.

Lemma liftW_logger (lvl : LogLevel) (msg : string) (p : Page) :
  liftW (logger lvl msg) p =
    (Resolved tt,
     pushCalls [Core (CallLogger lvl msg)]
       (set_world (record (CallLogger lvl msg) (world p)) p)).
Proof. by apply (liftW_run _ _ _ _ [CallLogger lvl msg]). Qed.

Lemma liftW_dispatch (a : Action) (p : Page) :
  liftW (dispatch a) p =
    (Resolved tt,
     pushCalls [Core (CallDispatch a)]
       (set_world (noteReducer a (record (CallDispatch a) (world p))) p)).
Proof.
  apply (liftW_run _ _ _ _ [CallDispatch a]); [done|]. by destruct a.
Qed.

Lemma liftW_invalidateFileContent (path : jsstr) (p : Page) :
  liftW (invalidateFileContent path) p =
    (Resolved tt,
     pushCalls [Core (CallInvalidateFileContent path)]
       (set_world (record (CallInvalidateFileContent path) (world p)) p)).
Proof. by apply (liftW_run _ _ _ _ [CallInvalidateFileContent path]). Qed.

Lemma liftW_addOperation (operationId : jsstr) (p : Page) :
  liftW (addOperation operationId) p =
    (Resolved tt,
     pushCalls [Core (CallLogger lvlDebug "Operation started:")]
       (set_world (started operationId (world p)) p)).
Proof. by apply (liftW_run _ _ _ _ [CallLogger lvlDebug "Operation started:"]). Qed.

Lemma liftW_removeOperation (operationId : jsstr) (p : Page) :
  liftW (removeOperation operationId) p =
    (Resolved tt,
     pushCalls [Core (CallLogger lvlDebug "Operation completed:")]
       (set_world (completed operationId (world p)) p)).
Proof.
  by apply (liftW_run _ _ _ _ [CallLogger lvlDebug "Operation completed:"]).
Qed.

Lemma liftW_saveCurrentNote (ext : Externals) (r : Render) (content : jsstr)
    (filePath : option jsstr) (p : Page) :
  liftW (saveCurrentNote ext r content filePath) p =
    (Resolved tt,
     pushCalls (map Core (saveCalls ext r content filePath))
       (set_world (recorded (saveCalls ext r content filePath) (world p)) p)).
Proof. apply liftW_run; [apply saveCurrentNote_run | done]. Qed.

Lemma liftW_debouncedSave_cancel (p : Page) :
  liftW debouncedSave_cancel p =
    (Resolved tt, set_world (set_debounceTimer None (world p)) p).
Proof.
  rewrite (liftW_run _ _ (Resolved tt) (set_debounceTimer None (world p)) []).
  - by rewrite pushCalls_nil.
  - done.
  - simpl. by rewrite app_nil_r.
Qed.

(** On an operation of the part above, [withOperationP] is
    [withOperation]. *)
Lemma withOperationP_liftW {T} (operationId : jsstr) (operation : M T)
    (p : Page) (cs : list Effect) :
  trace (snd (operation (started operationId (world p))))
  = trace (started operationId (world p)) ++ cs ->
  fst (withOperationP operationId (liftW operation) p)
  = fst (withOperation operationId operation (world p))
  /\ world (snd (withOperationP operationId (liftW operation) p))
     = snd (withOperation operationId operation (world p)).
Proof.
  intros Htrace. rewrite withOperation_run.
  unfold withOperationP, pbind, ptryFinally.
  rewrite liftW_addOperation.
  destruct (operation (started operationId (world p))) as [res w1] eqn:Hop.
  simpl in Htrace.
  rewrite (liftW_run operation _ res w1 cs); [|done|done].
  rewrite liftW_removeOperation. done.
Qed.

Create Rewrite HintDb page.

#[local] Hint Rewrite @liftW_call liftW_logger liftW_dispatch
  liftW_invalidateFileContent liftW_addOperation liftW_removeOperation
  liftW_saveCurrentNote liftW_debouncedSave_cancel : page.

(** Runs a handler of this part: unfolds the combinators, replaces the
    lifted calls by their outcome and simplifies the page. *)
Ltac prun :=
  repeat first
    [ progress cbv [pbind ptryCatch ptryFinally pret pthrow pcall pemit pgets
                    pmodify plogger withOperationP createFolder createNote
                    deleteNode updateNodeInTree moveNode uploadFiles
                    setSelectedFolderId toast sortAllLevels getNotesTree]
    | progress autorewrite with page
    | progress cbn [fst snd] ].

Ltac psimpl :=
  cbn [calls world pushCalls set_world set_isInitialSortApplied
       set_watcherSubscribed isInitialSortApplied editorMounted
       watcherSubscribed storeActiveFilePath pendingOperations trace
       isSyncingTree lastContent lastFilePath debounceTimer clock
       record recorded started completed set_pendingOperations
       set_debounceTimer set_lastContent set_lastFilePath
       noteReducer set_storeActiveFilePath fst snd];
  rewrite <- ?app_assoc.

(** X16: [handleCreateNote] with a target folder never rejects and always
    releases its pending id.  When both the creation and the resort
    resolve, the new note becomes the active file and the folder selection
    is cleared, in that order after the operation has completed; when
    either rejects, the error is logged and neither the active file path
    nor the folder selection is touched. *)
Theorem handleCreateNote_outcome (ext : Externals) (svc : PageServices)
    (pr : PageRender) (noteName : jsstr) (p : Page) :
  let targetPath := getTargetFolderPath (render pr) (selectedFolderId pr) in
  let opId := js "createNote:" ++ noteName in
  let out := handleCreateNote ext svc pr noteName p in
  targetPath <> [] ->
  fst out = Resolved tt
  /\ pendingOperations (world (snd out))
     = pendingOperations (world p) ∖ {[opId]}
  /\ match createNote_outcome svc noteName [] targetPath with
     | Resolved newNote =>
         match sortAllLevels_outcome ext (sortType (render pr)) with
         | Resolved _ =>
             calls (snd out) =
               calls p
               ++ [Core (CallLogger lvlDebug "Operation started:");
                   CallCreateNote noteName [] targetPath;
                   Core (CallSortAllLevels (sortType (render pr)));
                   Core (CallLogger lvlDebug "Operation completed:");
                   Core (CallDispatch
                           (setActiveFilePath (Some (externalPath newNote))));
                   CallSetSelectedFolderId None]
             /\ storeActiveFilePath (world (snd out))
                = Some (externalPath newNote)
         | Rejected _ =>
             calls (snd out) =
               calls p
               ++ [Core (CallLogger lvlDebug "Operation started:");
                   CallCreateNote noteName [] targetPath;
                   Core (CallSortAllLevels (sortType (render pr)));
                   Core (CallLogger lvlDebug "Operation completed:");
                   Core (CallLogger lvlError "Failed to create note:")]
             /\ storeActiveFilePath (world (snd out))
                = storeActiveFilePath (world p)
         end
     | Rejected _ =>
         calls (snd out) =
           calls p
           ++ [Core (CallLogger lvlDebug "Operation started:");
               CallCreateNote noteName [] targetPath;
               Core (CallLogger lvlDebug "Operation completed:");
               Core (CallLogger lvlError "Failed to create note:")]
         /\ storeActiveFilePath (world (snd out))
            = storeActiveFilePath (world p)
     end.
Proof.
  intros targetPath opId out Htarget. subst out. unfold handleCreateNote.
  fold targetPath. fold opId.
  assert (Htruthy : truthy targetPath = true) by (by destruct targetPath).
  assert (Hdiff : forall X : gset (list N),
            ({[opId]} ∪ X) ∖ {[opId]} = X ∖ {[opId]}) by set_solver.
  rewrite Htruthy. cbn [negb]. prun.
  destruct (createNote_outcome svc noteName [] targetPath) as [newNote|e];
    prun.
  - destruct (sortAllLevels_outcome ext (sortType (render pr))) as [[]|e];
      prun; psimpl; (split; [done|]); (split; [apply Hdiff|]); done.
  - psimpl. split; [done|]. split; [apply Hdiff|]. done.
Qed.

Lemma handleCreateNote_outcome_witness :
  storeActiveFilePath
    (world (snd (handleCreateNote calm quiet samplePage (js "b") blank)))
  = Some (js "/notes/b.md").
Proof.
  destruct (handleCreateNote_outcome calm quiet samplePage (js "b") blank)
    as (_ & _ & H); [vm_compute; discriminate|].
  exact (proj2 H).
Defined.

(** X17: without a target folder (nothing usable selected and no notes
    path) nothing is created: [handleCreateFolder] and [handleCreateNote]
    log the error and make no other call, register no pending operation and
    leave the active file path alone. *)
Theorem handleCreate_without_target (ext : Externals) (svc : PageServices)
    (pr : PageRender) (name : jsstr) (p : Page) :
  getTargetFolderPath (render pr) (selectedFolderId pr) = [] ->
  (fst (handleCreateFolder ext svc pr name p) = Resolved tt
   /\ calls (snd (handleCreateFolder ext svc pr name p))
      = calls p ++ [Core (CallLogger lvlError "Failed to create folder:")]
   /\ pendingOperations (world (snd (handleCreateFolder ext svc pr name p)))
      = pendingOperations (world p)
   /\ storeActiveFilePath (world (snd (handleCreateFolder ext svc pr name p)))
      = storeActiveFilePath (world p))
  /\ (fst (handleCreateNote ext svc pr name p) = Resolved tt
      /\ calls (snd (handleCreateNote ext svc pr name p))
         = calls p ++ [Core (CallLogger lvlError "Failed to create note:")]
      /\ pendingOperations (world (snd (handleCreateNote ext svc pr name p)))
         = pendingOperations (world p)
      /\ storeActiveFilePath (world (snd (handleCreateNote ext svc pr name p)))
         = storeActiveFilePath (world p)).
Proof.
  intros Hnone. unfold handleCreateFolder, handleCreateNote.
  rewrite Hnone. cbn [truthy negb]. prun. by psimpl.
Qed.

Lemma handleCreate_without_target_witness :
  calls (snd (handleCreateNote calm quiet unsetPage (js "b") blank))
  = calls blank ++ [Core (CallLogger lvlError "Failed to create note:")].
Proof.
  destruct (handleCreate_without_target calm quiet unsetPage (js "b") blank)
    as [_ (_ & H & _)]; [reflexivity | exact H].
Defined.

(** X18: [handleCreateFolder] with a target folder never rejects, resorts
    only after the folder was created, always releases its pending id, and
    never changes the active file path or the folder selection. *)
Theorem handleCreateFolder_outcome (ext : Externals) (svc : PageServices)
    (pr : PageRender) (folderName : jsstr) (p : Page) :
  let targetPath := getTargetFolderPath (render pr) (selectedFolderId pr) in
  let opId := js "createFolder:" ++ folderName in
  let out := handleCreateFolder ext svc pr folderName p in
  targetPath <> [] ->
  fst out = Resolved tt
  /\ pendingOperations (world (snd out))
     = pendingOperations (world p) ∖ {[opId]}
  /\ storeActiveFilePath (world (snd out)) = storeActiveFilePath (world p)
  /\ calls (snd out) =
       calls p
       ++ [Core (CallLogger lvlDebug "Operation started:");
           CallCreateFolder folderName targetPath]
       ++ match createFolder_outcome svc folderName targetPath with
          | Resolved _ =>
              Core (CallSortAllLevels (sortType (render pr))) ::
              Core (CallLogger lvlDebug "Operation completed:") ::
              match sortAllLevels_outcome ext (sortType (render pr)) with
              | Resolved _ => []
              | Rejected _ =>
                  [Core (CallLogger lvlError "Failed to create folder:")]
              end
          | Rejected _ =>
              [Core (CallLogger lvlDebug "Operation completed:");
               Core (CallLogger lvlError "Failed to create folder:")]
          end.
Proof.
  intros targetPath opId out Htarget. subst out. unfold handleCreateFolder.
  fold targetPath. fold opId.
  assert (Htruthy : truthy targetPath = true) by (by destruct targetPath).
  assert (Hdiff : forall X : gset (list N),
            ({[opId]} ∪ X) ∖ {[opId]} = X ∖ {[opId]}) by set_solver.
  rewrite Htruthy. cbn [negb]. prun.
  destruct (createFolder_outcome svc folderName targetPath) as [[]|e]; prun.
  - destruct (sortAllLevels_outcome ext (sortType (render pr))) as [[]|e];
      prun; psimpl; (split; [done|]); (split; [apply Hdiff|]); done.
  - psimpl. split; [done|]. split; [apply Hdiff|]. done.
Qed.

Lemma handleCreateFolder_outcome_witness :
  calls (snd (handleCreateFolder calm quiet samplePage (js "docs") blank))
  = [Core (CallLogger lvlDebug "Operation started:");
     CallCreateFolder (js "docs") (js "/notes");
     Core (CallSortAllLevels (js "sort_a2z"));
     Core (CallLogger lvlDebug "Operation completed:")].
Proof.
  destruct (handleCreateFolder_outcome calm quiet samplePage (js "docs") blank)
    as (_ & _ & _ & H); [vm_compute; discriminate | exact H].
Defined.

(** X19: [handleDeleteNode] does nothing at all for an id that is not in
    the tree.  For a node of the tree it calls [deleteNode] and then
    resorts, registering no pending operation; the selection is cleared (the
    active file path set to undefined, then the editor cleared when it is
    mounted) exactly when both calls resolved, a file is active, and the
    node is the active file or a parent of the active node; a failure is
    logged and clears nothing. *)
Theorem handleDeleteNode_outcome (ext : Externals) (svc : PageServices)
    (pr : PageRender) (nodeId : jsstr) (p : Page) :
  let r := render pr in
  let out := handleDeleteNode ext svc pr nodeId p in
  fst out = Resolved tt
  /\ pendingOperations (world (snd out)) = pendingOperations (world p)
  /\ (findNodeById (notesTree r) nodeId = None -> snd out = p)
  /\ forall node,
       findNodeById (notesTree r) nodeId = Some node ->
       let clears :=
         truthy_opt (activeFilePath r)
         && (opt_streq (activeFilePath r) (externalPath node)
             || isParentNode svc (notesTree r) nodeId
                  (default [] (or_else (id <$> activeNode pr) (Some [])))) in
       calls (snd out) =
         calls p
         ++ CallDeleteNode nodeId ::
            match deleteNode_outcome svc nodeId with
            | Resolved _ =>
                Core (CallSortAllLevels (sortType r)) ::
                match sortAllLevels_outcome ext (sortType r) with
                | Resolved _ =>
                    if clears then
                      Core (CallDispatch (setActiveFilePath None)) ::
                      (if editorMounted p then [CallEditorClear] else [])
                    else []
                | Rejected _ =>
                    [Core (CallLogger lvlError "Failed to delete node:")]
                end
            | Rejected _ =>
                [Core (CallLogger lvlError "Failed to delete node:")]
            end.
Proof.
  intros r out. subst out r. unfold handleDeleteNode.
  destruct (findNodeById (notesTree (render pr)) nodeId) as [node|];
    [|prun; repeat split; done].
  prun.
  destruct (deleteNode_outcome svc nodeId) as [[]|e]; prun;
    [|psimpl; repeat split; try done; intros ? [= <-]; done].
  destruct (sortAllLevels_outcome ext (sortType (render pr))) as [[]|e]; prun;
    [|psimpl; repeat split; try done; intros ? [= <-]; done].
  destruct (truthy_opt (activeFilePath (render pr))
            && (opt_streq (activeFilePath (render pr)) (externalPath node)
                || isParentNode svc (notesTree (render pr)) nodeId
                     (default [] (or_else (id <$> activeNode pr) (Some [])))))
    eqn:Hclears; prun.
  - cbn [editorMounted pushCalls set_world].
    destruct (editorMounted p) eqn:Hm; prun; psimpl;
      repeat split; try done; intros ? [= <-]; cbn zeta;
      rewrite Hclears; done.
  - psimpl; repeat split; try done; intros ? [= <-]; cbn zeta;
      rewrite Hclears; done.
Qed.

Lemma handleDeleteNode_outcome_witness :
  calls (snd (handleDeleteNode calm quiet samplePage (js "n1") blank))
  = [CallDeleteNode (js "n1");
     Core (CallSortAllLevels (js "sort_a2z"));
     Core (CallDispatch (setActiveFilePath None));
     CallEditorClear].
Proof.
  destruct (handleDeleteNode_outcome calm quiet samplePage (js "n1") blank)
    as (_ & _ & _ & H).
  exact (H aNote eq_refl).
Defined.

(** X20: selecting a file makes it the active file, invalidates its cached
    content and clears the folder selection, in this order, without
    touching the tree.  Selecting a folder selects it and then toggles its
    expansion from the state the freshly read tree holds for that id, not
    from the node that was clicked; a failure to read or update the tree is
    logged and the handler still resolves. *)
Theorem handleSelectNode_outcome (ext : Externals) (svc : PageServices)
    (node : NotesTreeNode) (p : Page) :
  let out := handleSelectNode ext svc node p in
  fst out = Resolved tt
  /\ (type node = file ->
      calls (snd out) =
        calls p
        ++ [Core (CallDispatch (setActiveFilePath (Some (externalPath node))));
            Core (CallInvalidateFileContent (externalPath node));
            CallSetSelectedFolderId None]
      /\ storeActiveFilePath (world (snd out)) = Some (externalPath node))
  /\ (type node = folder ->
      storeActiveFilePath (world (snd out)) = storeActiveFilePath (world p)
      /\ calls (snd out) =
           calls p
           ++ CallSetSelectedFolderId (Some (id node)) ::
              Core CallGetNotesTree ::
              match getNotesTree_outcome ext with
              | Resolved tree =>
                  match findNodeById tree (id node) with
                  | Some fresh =>
                      if NodeType_eqb (type fresh) folder then
                        CallUpdateNodeInTree tree (id node)
                          (patchExpanded (negb (expanded fresh))) ::
                        match updateNodeInTree_outcome svc tree (id node)
                                (patchExpanded (negb (expanded fresh))) with
                        | Resolved _ => []
                        | Rejected _ =>
                            [Core (CallLogger lvlError "Failed to toggle expanded:");
                             Core (CallLogger lvlError "Failed to toggle expanded:")]
                        end
                      else []
                  | None => []
                  end
              | Rejected _ =>
                  [Core (CallLogger lvlError "Failed to toggle expanded:");
                   Core (CallLogger lvlError "Failed to toggle expanded:")]
              end).
Proof.
  intros out. subst out. unfold handleSelectNode.
  destruct (type node); cbn [NodeType_eqb].
  - prun; psimpl; repeat split; done.
  - unfold handleToggleExpanded, toggleNodeExpanded. prun.
    destruct (getNotesTree_outcome ext) as [tree|e]; prun;
      [|psimpl; repeat split; done].
    destruct (findNodeById tree (id node)) as [fresh|]; prun;
      [|psimpl; repeat split; done].
    destruct (NodeType_eqb (type fresh) folder); prun;
      [|psimpl; repeat split; done].
    destruct (updateNodeInTree_outcome svc tree (id node)
                (patchExpanded (negb (expanded fresh)))) as [[]|e];
      prun; psimpl; repeat split; done.
Qed.

Lemma handleSelectNode_outcome_witness :
  calls (snd (handleSelectNode calm quiet aNote blank))
  = [Core (CallDispatch (setActiveFilePath (Some (js "/notes/a.md"))));
     Core (CallInvalidateFileContent (js "/notes/a.md"));
     CallSetSelectedFolderId None].
Proof.
  destruct (handleSelectNode_outcome calm quiet aNote blank) as (_ & H & _).
  exact (proj1 (H eq_refl)).
Defined.

(** X21: only files are starred.  [toggleStarred] reads the tree and
    updates the node only when the id is that of a file, with the negation
    of its current star; it resolves with the tree it read, also when
    nothing was updated.  When the read or the update fails it logs the
    error and rejects with it; [handleToggleStar] logs it once more and
    resolves. *)
Theorem toggleStarred_outcome (ext : Externals) (svc : PageServices)
    (nodeId : jsstr) (p : Page) :
  let out := toggleStarred ext svc nodeId p in
  let update tree node :=
    CallUpdateNodeInTree tree nodeId (patchIsStarred (negb (isStarred node))) in
  let failed := Core (CallLogger lvlError "Failed to toggle star:") in
  match getNotesTree_outcome ext with
  | Resolved tree =>
      match findNodeById tree nodeId with
      | Some node =>
          match type node with
          | file =>
              match updateNodeInTree_outcome svc tree nodeId
                      (patchIsStarred (negb (isStarred node))) with
              | Resolved _ =>
                  fst out = Resolved tree
                  /\ calls (snd out) =
                       calls p ++ [Core CallGetNotesTree; update tree node]
              | Rejected e =>
                  fst out = Rejected e
                  /\ calls (snd out) =
                       calls p
                       ++ [Core CallGetNotesTree; update tree node; failed]
              end
          | folder =>
              fst out = Resolved tree
              /\ calls (snd out) = calls p ++ [Core CallGetNotesTree]
          end
      | None =>
          fst out = Resolved tree
          /\ calls (snd out) = calls p ++ [Core CallGetNotesTree]
      end
  | Rejected e =>
      fst out = Rejected e
      /\ calls (snd out) = calls p ++ [Core CallGetNotesTree; failed]
  end
  /\ fst (handleToggleStar ext svc nodeId p) = Resolved tt
  /\ calls (snd (handleToggleStar ext svc nodeId p)) =
       calls (snd out)
       ++ match fst out with
          | Resolved _ => []
          | Rejected _ => [failed]
          end.
Proof.
  intros out update failed. subst out update failed.
  unfold handleToggleStar, toggleStarred. prun.
  destruct (getNotesTree_outcome ext) as [tree|e]; prun;
    [|psimpl; repeat split; done].
  destruct (findNodeById tree nodeId) as [node|]; prun;
    [|psimpl; rewrite ?app_nil_r; repeat split; done].
  destruct (type node); cbn [NodeType_eqb]; prun;
    [|psimpl; rewrite ?app_nil_r; repeat split; done].
  destruct (updateNodeInTree_outcome svc tree nodeId
              (patchIsStarred (negb (isStarred node)))) as [[]|e];
    prun; psimpl; rewrite ?app_nil_r; repeat split; done.
Qed.

(** X22: [handleMoveNode] never rejects, and it resorts exactly when the
    move resolved as a success of a type other than ['manual_reorder']: a
    manual reorder keeps the order the user made. *)
Theorem handleMoveNode_resorts_unless_manual (ext : Externals)
    (svc : PageServices) (pr : PageRender) (sourceNodeId targetNodeId : jsstr)
    (position : MovePosition) (p : Page) :
  let out := handleMoveNode ext svc pr sourceNodeId targetNodeId position p in
  fst out = Resolved tt
  /\ exists new,
       calls (snd out) =
         calls p ++ CallMoveNode sourceNodeId targetNodeId position :: new
       /\ (In (Core (CallSortAllLevels (sortType (render pr)))) new <->
           exists result,
             moveNode_outcome svc sourceNodeId targetNodeId position
             = Resolved result
             /\ success result = true
             /\ moveType result <> js "manual_reorder").
Proof.
  intros out. subst out. unfold handleMoveNode. prun.
  destruct (moveNode_outcome svc sourceNodeId targetNodeId position)
    as [result|e]; prun.
  2:{ psimpl. split; [done|]. eexists. split; [reflexivity|].
      simpl. split; [intros [H|[]]; discriminate|].
      intros (? & ? & _). discriminate. }
  destruct (success result) eqn:Hs; cbn [andb].
  2:{ prun. split; [done|]. exists []. split; [done|].
      split; [intros []|]. intros (? & [= <-] & ? & _). congruence. }
  destruct (streq (moveType result) (js "manual_reorder")) eqn:Hm; cbn [negb].
  { apply streq_eq in Hm. prun. split; [done|]. exists []. split; [done|].
    split; [intros []|]. intros (? & [= <-] & _ & ?). congruence. }
  apply streq_neq in Hm. prun.
  destruct (sortAllLevels_outcome ext (sortType (render pr))) as [[]|e];
    prun; psimpl; (split; [done|]); eexists; (split; [reflexivity|]);
    (split; [intros _; by exists result | intros _; by left]).
Qed.

(** X23: [handleUploadFiles] never rejects.  With no files it only warns
    and uploads nothing; without a target folder, or when the upload or the
    resort fails, it logs the error and shows the failure toast; when the
    upload kept no file it warns and does not resort; otherwise it resorts
    and then reports success. *)
Theorem handleUploadFiles_outcome (ext : Externals) (svc : PageServices)
    (pr : PageRender) (files : list JsFile) (p : Page) :
  let targetPath := getTargetFolderPath (render pr) (selectedFolderId pr) in
  let out := handleUploadFiles ext svc pr files p in
  let failure :=
    [Core (CallLogger lvlError "Failed to handle file upload:");
     CallToast toastError "notes.upload_failed"] in
  fst out = Resolved tt
  /\ calls (snd out) =
       calls p
       ++ match files with
          | [] => [CallToast toastWarning "notes.no_file_selected"]
          | _ :: _ =>
              match targetPath with
              | [] => failure
              | _ :: _ =>
                  CallUploadFiles files targetPath ::
                  match uploadFiles_outcome svc files targetPath with
                  | Resolved result =>
                      if fileCount result =? 0
                      then [CallToast toastWarning "notes.no_valid_files"]
                      else
                        Core (CallSortAllLevels (sortType (render pr))) ::
                        match sortAllLevels_outcome ext
                                (sortType (render pr)) with
                        | Resolved _ =>
                            [CallToast toastSuccess "notes.upload_success"]
                        | Rejected _ => failure
                        end
                  | Rejected _ => failure
                  end
              end
          end.
Proof.
  intros targetPath out failure. subst out failure.
  unfold handleUploadFiles. fold targetPath.
  destruct files as [|f files]; [prun; by psimpl|]. cbn [length Nat.eqb].
  destruct targetPath as [|c t]; cbn [truthy negb]; [prun; by psimpl|].
  prun.
  destruct (uploadFiles_outcome svc (f :: files) (c :: t)) as [result|e];
    prun; [|by psimpl].
  destruct (fileCount result =? 0); prun; [by psimpl|].
  destruct (sortAllLevels_outcome ext (sortType (render pr))) as [[]|e];
    prun; by psimpl.
Qed.

(** X24: the initial sort runs only for a non-empty tree whose flag is not
    set; the flag is set only when the sort resolved, and a run of the
    effect that starts after that makes no call; after a failed sort the
    flag stays clear, so the next run sorts again. *)
Theorem applyInitialSort_once (ext ext' : Externals) (pr : PageRender)
    (p : Page) :
  let out := applyInitialSort ext pr p in
  let again := applyInitialSort ext' pr (snd out) in
  let st := sortType (render pr) in
  fst out = Resolved tt
  /\ (notesTree (render pr) = [] \/ isInitialSortApplied p = true ->
      snd out = p)
  /\ (notesTree (render pr) <> [] -> isInitialSortApplied p = false ->
      match sortAllLevels_outcome ext st with
      | Resolved _ =>
          calls (snd out) = calls p ++ [Core (CallSortAllLevels st)]
          /\ isInitialSortApplied (snd out) = true
          /\ snd again = snd out
      | Rejected _ =>
          calls (snd out) =
            calls p ++ [Core (CallSortAllLevels st);
                        Core (CallLogger lvlError
                                "Failed to apply initial sorting:")]
          /\ isInitialSortApplied (snd out) = false
          /\ exists rest,
               calls (snd again) =
                 calls (snd out) ++ Core (CallSortAllLevels st) :: rest
      end).
Proof.
  intros out again st. subst out again st. unfold applyInitialSort.
  split; [|split].
  - prun. destruct (_ && _); prun; [|done].
    destruct (sortAllLevels_outcome ext (sortType (render pr))) as [[]|e];
      prun; done.
  - intros [Htree | Hflag]; prun.
    + by rewrite Htree.
    + by rewrite Hflag, andb_false_r.
  - intros Htree Hflag. prun. rewrite Hflag.
    destruct (notesTree (render pr)) as [|n t] eqn:E; [done|].
    cbn [length Nat.ltb Nat.leb andb negb]. prun.
    destruct (sortAllLevels_outcome ext (sortType (render pr))) as [[]|e];
      prun; psimpl.
    + repeat split; done.
    + split; [done|]. split; [exact Hflag|]. rewrite Hflag.
      cbn [andb negb]. prun.
      destruct (sortAllLevels_outcome ext' (sortType (render pr))) as [[]|e'];
        prun; psimpl; eexists; rewrite <- ?app_assoc; reflexivity.
Qed.

Lemma applyInitialSort_once_witness :
  snd (applyInitialSort calm samplePage
         (snd (applyInitialSort calm samplePage blank)))
  = snd (applyInitialSort calm samplePage blank).
Proof.
  destruct (applyInitialSort_once calm calm samplePage blank)
    as (_ & _ & H).
  destruct H as (_ & _ & Hagain); [discriminate | reflexivity | exact Hagain].
Defined.

(** X25: the watcher effect registers [handleFileChange] only for a render
    with a notes path and a non-empty tree, and only after
    [startFileWatcher] resolved; before it starts the watcher it drops the
    subscription of an earlier run; a failure to start is logged, leaves no
    subscription and does not reject. *)
Theorem startWatcherEffect_registers (svc : PageServices) (pr : PageRender)
    (p : Page) :
  let r := render pr in
  let out := startWatcherEffect svc pr p in
  fst out = Resolved tt
  /\ (watcherRegistered r = false -> snd out = p)
  /\ (watcherRegistered r = true ->
      calls (snd out) =
        calls p
        ++ (if watcherSubscribed p then [CallUnsubscribe] else [])
        ++ CallStartFileWatcher (notesPath r) ::
           match startFileWatcher_outcome svc (notesPath r) with
           | Resolved _ => [CallOnFileChange]
           | Rejected _ =>
               [Core (CallLogger lvlError "Failed to start file watcher:")]
           end
      /\ watcherSubscribed (snd out) =
           match startFileWatcher_outcome svc (notesPath r) with
           | Resolved _ => true
           | Rejected _ => false
           end).
Proof.
  intros r out. subst out r. unfold startWatcherEffect, watcherRegistered.
  destruct (negb (truthy (notesPath (render pr)))
            || (length (notesTree (render pr)) =? 0)); cbn [negb].
  { prun. repeat split; done. }
  unfold dropSubscription. prun.
  destruct (watcherSubscribed p) eqn:Hsub; prun;
    destruct (startFileWatcher_outcome svc (notesPath (render pr))) as [[]|e];
    prun; psimpl; repeat split; done.
Qed.

Lemma startWatcherEffect_registers_witness :
  calls (snd (startWatcherEffect quiet samplePage blank))
  = [CallStartFileWatcher (js "/notes"); CallOnFileChange]
  /\ snd (startWatcherEffect quiet unsetPage blank) = blank.
Proof.
  split.
  - destruct (startWatcherEffect_registers quiet samplePage blank)
      as (_ & _ & H).
    exact (proj1 (H eq_refl)).
  - destruct (startWatcherEffect_registers quiet unsetPage blank)
      as (_ & H & _).
    exact (H eq_refl).
Defined.

Lemma liftW_fileSwitchCleanup (ext : Externals) (r : Render) (p : Page) :
  liftW (fileSwitchCleanup ext r) p =
    (Resolved tt,
     pushCalls
       (map Core
          (if truthy (lastContent (world p)) && truthy_opt (lastFilePath (world p))
           then saveCalls ext r (lastContent (world p)) (lastFilePath (world p))
           else []))
       (set_world (snd (fileSwitchCleanup ext r (world p))) p)).
Proof.
  apply liftW_run; rewrite fileSwitchCleanup_run; [done|]. cbn [snd].
  destruct (truthy (lastContent (world p)) && truthy_opt (lastFilePath (world p)));
    simpl; [done | by rewrite app_nil_r].
Qed.

(** X26: the cleanup of the watcher effect never rejects: it drops the
    subscription if there is one and then asks the watcher to stop; besides
    that it logs a failure to stop, and makes the calls of one
    [saveCurrentNote] when the last edit has content, is not identical to
    the cached content and has a path; the debounced save ends cancelled
    and the edit refs are kept. *)
Theorem watcherCleanup_outcome (ext : Externals) (svc : PageServices)
    (pr : PageRender) (p : Page) :
  let out := watcherCleanup ext svc pr p in
  let content := lastContent (world p) in
  let path := lastFilePath (world p) in
  fst out = Resolved tt
  /\ watcherSubscribed (snd out) = false
  /\ debounceTimer (world (snd out)) = None
  /\ lastContent (world (snd out)) = content
  /\ lastFilePath (world (snd out)) = path
  /\ exists settled,
       calls (snd out) =
         calls p
         ++ (if watcherSubscribed p then [CallUnsubscribe] else [])
         ++ CallStopFileWatcher :: settled
       /\ settled ≡ₚ
            match stopFileWatcher_outcome svc with
            | Resolved _ => []
            | Rejected _ =>
                [Core (CallLogger lvlError "Failed to stop file watcher:")]
            end
            ++ (if truthy content
                   && negb (streq content (currentContent (render pr)))
                   && truthy_opt path
                then map Core (saveCalls ext (render pr) content path)
                else []).
Proof.
  intros out content path. subst out content path.
  unfold watcherCleanup, dropSubscription. prun.
  destruct (watcherSubscribed p) eqn:Hsub; prun;
    destruct (stopFileWatcher_outcome svc) as [[]|e]; prun; psimpl;
    destruct (truthy (lastContent (world p))
              && negb (streq (lastContent (world p)) (currentContent (render pr)))
              && truthy_opt (lastFilePath (world p)));
    prun; psimpl; rewrite ?app_nil_r;
    (split; [done|]); (split; [done|]); (split; [done|]); (split; [done|]);
    (split; [done|]); eexists; (split; [reflexivity|]); reflexivity.
Qed.

(** X27: when a file with an unsaved edit is left while the watcher is
    registered, the cleanup of the watcher effect and the cleanup keyed on
    the active file path, taken from the same render and run in the order
    the page declares them, each save the edit: [file.write] is called
    twice with the same path and content. *)
Theorem cleanups_write_pending_edit_twice (ext : Externals)
    (svc : PageServices) (pr : PageRender) (content path : jsstr) (p : Page) :
  watcherRegistered (render pr) = true ->
  lastContent (world p) = content ->
  lastFilePath (world p) = Some path ->
  content <> [] ->
  path <> [] ->
  trim content <> trim (currentContent (render pr)) ->
  let out :=
    pbind (watcherCleanup ext svc pr)
      (fun _ => liftW (fileSwitchCleanup ext (render pr))) p in
  fst out = Resolved tt
  /\ exists new,
       calls (snd out) = calls p ++ new
       /\ length (List.filter (isWriteOf path content) new) = 2.
Proof.
  intros _ Hcontent Hpath Hc Hp Hdiff out. subst out.
  assert (Htc : truthy content = true) by (by destruct content).
  assert (Htp : truthy path = true) by (by destruct path).
  assert (Hne : streq content (currentContent (render pr)) = false).
  { apply streq_neq. intros E. apply Hdiff. by rewrite E. }
  assert (Hcalls : exists tail,
            saveCalls ext (render pr) content (Some path)
            = CallFileWrite path content :: tail
            /\ List.filter (isWriteOf path content) (map Core tail) = []).
  { unfold saveCalls, or_else. simpl. rewrite Htp. simpl.
    apply streq_neq in Hdiff. rewrite Hdiff, ?Htp. simpl.
    destruct (fileWrite_outcome ext path content); eexists; by split. }
  destruct Hcalls as (tail & Hsave & Htail).
  unfold watcherCleanup, dropSubscription, pbind at 1.
  prun.
  destruct (watcherSubscribed p) eqn:Hsub; prun;
    destruct (stopFileWatcher_outcome svc) as [[]|e]; prun; psimpl;
    rewrite Hcontent, Hpath, Htc, Hne; cbn [andb negb truthy_opt];
    rewrite Htp; prun; rewrite liftW_fileSwitchCleanup; psimpl;
    rewrite Hcontent, Hpath, Htc; cbn [andb truthy_opt]; rewrite Htp;
    rewrite Hsave; (split; [done|]); eexists;
    (split; [rewrite <- ?app_assoc; reflexivity|]);
    repeat first
      [ progress cbn [List.filter isWriteOf app map andb length]
      | rewrite List.filter_app
      | rewrite streq_refl
      | rewrite Htail ];
    reflexivity.
Qed.

Lemma cleanups_write_pending_edit_twice_witness :
  let p := set_world (snd (handleMarkdownChange sample (js "new") idle)) blank in
  exists new,
    calls (snd (pbind (watcherCleanup calm quiet samplePage)
                  (fun _ => liftW (fileSwitchCleanup calm sample)) p))
    = calls p ++ new
    /\ length (List.filter (isWriteOf (js "/notes/a.md") (js "new")) new) = 2.
Proof.
  intros p.
  destruct (cleanups_write_pending_edit_twice calm quiet samplePage (js "new")
              (js "/notes/a.md") p) as [_ H];
    [reflexivity | reflexivity | reflexivity | vm_compute; discriminate
     | vm_compute; discriminate | vm_compute; discriminate | exact H].
Defined.
